(** * ConversationService: the streaming orchestration of ms-jarvis-svc

    A shallow embedding of [app/services/conversation_service.py].  The
    service talks to five collaborators (two repositories, the Nexus message
    store, the Frost usage sink, the database session) and to the upstream
    LLM node.  Every call to one of them is recorded, in order, in a log;
    what a call answers is decided by an environment that may look at the
    whole log so far.  The async generator [_handle_streaming_response] is a
    value of type [Generator] that the consumer drives with [anext] and
    [aclose]. *)

From Stdlib Require Import ZArith String Floats.
From stdpp Require Import base option list strings pretty gmap.

Local Open Scope string_scope.
Local Open Scope Z_scope.
Local Open Scope list_scope.

(** ** Data model *)

(** [app.core.exceptions.APIError] and the other exceptions that can leave
    the service.  [ExternalError] stands for whatever a collaborator raises
    (HTTP client, database driver, provider SDK). *)
Inductive Exn :=
  | APIError (status_code : Z) (message : string)
  | AttributeError (message : string)
  | ExternalError (origin : string).

Inductive result (A : Type) :=
  | Ok (a : A)
  | Raise (e : Exn).
Arguments Ok {A} a.
Arguments Raise {A} e.

(** [app.schemas.chat.CreateMessageRequest], as far as the service reads it. *)
Record CreateMessageRequest := {
  req_content : string;
  req_id : option string;
  req_parent_id : option string;
  response_id : string;
}.

Record Bot := { bot_id_of : string }.

(** [app.models.bot.BotConfig], as far as the service reads it. *)
Record BotConfig := {
  model_name : string;
  temperature : float;
  max_output_tokens : Z;
  custom_instructions : string;
}.

(** [chainable_llm.core.types.StreamChunk]: a text delta (possibly absent), a
    metadata bag whose entries are themselves dictionaries of counters, and
    the terminal flag. *)
Record StreamChunk := {
  content : option string;
  metadata : gmap string (gmap string Z);
  done : bool;
}.

Record StreamConfig := { enabled : bool; chunk_size : Z }.

Record LLMConfig := {
  provider : string;
  api_key : string;
  model : string;
  llm_temperature : float;
  max_tokens : Z;
  streaming : StreamConfig;
}.

Inductive InputType := USER_PROMPT.

Record PromptConfig := {
  input_type : InputType;
  base_system_prompt : string;
  template : string;
}.

(** A history entry handed to the provider: the dictionary
    [{"role": ..., "content": ...}]. *)
Record Turn := { role : string; turn_content : string }.

(** [chainable_llm.nodes.base.LLMNode]: its configuration and the turns
    added to [llm.conversation] so far. *)
Record LLMNode := {
  llm_config : LLMConfig;
  prompt_config : PromptConfig;
  conversation : list Turn;
}.

(** The JSON body of [POST api/v1/messages/{thread_id}]. *)
Record Payload := {
  p_id : string;
  p_content : string;
  p_status : string;
  p_parent_id : option string;
  p_role : string;
}.

(** What the message store answers in ["data"]: the service reads ["id"] and
    ["branch_id"] of the stored user message, and ["role"] and ["content"] of
    every history message. *)
Record MessageData := { msg_id : string; branch_id : string }.
Record StoredMessage := { sm_id : string; sm_role : string; sm_content : string }.

(** The JSON body of [POST api/v1/events]. *)
Record UsageEvent := {
  account_id : string;
  ev_model_name : string;
  input_tokens : option Z;
  output_tokens : option Z;
  request_id : string;
  user_id : option string;
  tenant_id : option string;
  ip_address : string;
  user_agent : string;
}.

(** What [llm.process_stream] will produce: finitely many chunks, after which
    the provider either stops or raises. *)
Record Upstream := { chunks : list StreamChunk; failure : option Exn }.

(** ** Calls to the collaborators *)

(** One entry per call, in the order the calls are made; [ok] tells whether
    the call returned ([true]) or raised ([false]). *)
Inductive Event :=
  | BotRepoGet (bot_id : string)
  | BotConfigRepoGet (bot_id : string)
  | NexusPost (path : string) (json : Payload) (ok : bool)
  | NexusGet (path : string) (last_message_id branch : string) (ok : bool)
  | ProcessStream (llm : LLMNode) (input : string)
  | FrostPost (path : string) (json : UsageEvent) (ok : bool)
  | DbCommit (ok : bool).

(** The environment: settings, context variables, the identifier source and
    the answers of the collaborators.  Each answer may depend on the calls
    made so far. *)
Record Env := {
  OPENAI_API_KEY : string;
  ANTHROPIC_API_KEY : string;
  current_user_id : option string;
  current_tenant_id : option string;
  uuid7 : nat -> string;
  bot_repo_get : list Event -> string -> result (option Bot);
  bot_config_repo_get : list Event -> string -> result (option BotConfig);
  nexus_post : list Event -> string -> Payload -> result MessageData;
  nexus_get : list Event -> string -> string -> string -> result (list StoredMessage);
  frost_post : list Event -> string -> UsageEvent -> result unit;
  db_commit : list Event -> result unit;
  process_stream : list Event -> LLMNode -> string -> Upstream;
}.

(** The state the service runs in: the log of calls and how many identifiers
    [uuid7] has handed out. *)
Record World := { log : list Event; uuid_calls : nat }.

Definition record (e : Event) (w : World) : World :=
  {| log := log w ++ [e]; uuid_calls := uuid_calls w |}.

(** ** A state and exception monad *)

Definition M (A : Type) : Type := World -> result A * World.

Definition ret {A} (a : A) : M A := fun w => (Ok a, w).
Definition raise {A} (e : Exn) : M A := fun w => (Raise e, w).
Definition bind {A B} (m : M A) (k : A -> M B) : M B :=
  fun w => match m w with
           | (Ok a, w') => k a w'
           | (Raise e, w') => (Raise e, w')
           end.
Definition lift {A} (r : result A) : M A := fun w => (r, w).

Declare Scope svc_scope.
Delimit Scope svc_scope with svc.
Notation "x <- m ;; k" := (bind m (fun x => k))
  (at level 100, m at next level, right associativity) : svc_scope.
Notation "m ;; k" := (bind m (fun _ => k))
  (at level 100, right associativity) : svc_scope.
Local Open Scope svc_scope.

(** Python truthiness of an optional string: [None] and [""] are falsy. *)
Definition truthy (s : option string) : bool :=
  match s with
  | Some EmptyString => false
  | Some _ => true
  | None => false
  end.

Definition messages_path (thread_id : string) : string :=
  "api/v1/messages/" +:+ thread_id.

Definition openai_models : list string :=
  ["gpt-4o"; "gpt-4o-mini"; "gpt-4"; "gpt-4-turbo"; "gpt-3.5-turbo"].

Definition anthropic_models : list string :=
  ["claude-3-5-sonnet-20241022"; "claude-3-5-sonnet-20240620";
   "claude-3-haiku-20240307"; "claude-3-opus-20240229";
   "claude-3-sonnet-20240229"].

(** ** The generator as a value *)

(** The arguments [_handle_streaming_response] is called with. *)
Record StreamArgs := {
  schema : CreateMessageRequest;
  arg_api_key : string;
  arg_provider : string;
  config : BotConfig;
  thread_id : string;
  user_msg_id : string;
  assistant_msg_id : string;
  formatted_history : list Turn;
}.

(** An async generator object: not yet started, parked on [yield chunk]
    (with the accumulator and the chunks the provider has still to emit), or
    finished. *)
Inductive Generator :=
  | Created (a : StreamArgs)
  | Suspended (a : StreamArgs) (accumulated_content : list string)
      (chunk : StreamChunk) (up : Upstream)
  | Finished.

(** What one [__anext__] gives the caller. *)
Inductive Outcome :=
  | Yielded (chunk : StreamChunk)
  | StopAsyncIteration
  | Raised (e : Exn).

(** How an [async for] over the generator ends. *)
Inductive Ending :=
  | Exhausted
  | Failed (e : Exn)
  | Pending (g : Generator).

Inductive Op := Anext | Aclose.

Section Service.

Context (env : Env).

(** *** Collaborator calls *)

Definition fresh_uuid : M string :=
  fun w => (Ok (uuid7 env (uuid_calls w)),
            {| log := log w; uuid_calls := S (uuid_calls w) |}).

Definition call_bot_repo (bot_id : string) : M (option Bot) :=
  fun w => (bot_repo_get env (log w) bot_id, record (BotRepoGet bot_id) w).

Definition call_bot_config_repo (bot_id : string) : M (option BotConfig) :=
  fun w => (bot_config_repo_get env (log w) bot_id,
            record (BotConfigRepoGet bot_id) w).

Definition is_ok {A} (r : result A) : bool :=
  match r with Ok _ => true | Raise _ => false end.

Definition call_nexus_post (path : string) (json : Payload) : M MessageData :=
  fun w => let r := nexus_post env (log w) path json in
           (r, record (NexusPost path json (is_ok r)) w).

Definition call_nexus_get (path last_message_id branch : string)
  : M (list StoredMessage) :=
  fun w => let r := nexus_get env (log w) path last_message_id branch in
           (r, record (NexusGet path last_message_id branch (is_ok r)) w).

Definition call_frost_post (path : string) (json : UsageEvent) : M unit :=
  fun w => let r := frost_post env (log w) path json in
           (r, record (FrostPost path json (is_ok r)) w).

Definition call_db_commit : M unit :=
  fun w => let r := db_commit env (log w) in
           (r, record (DbCommit (is_ok r)) w).

Definition call_process_stream (llm : LLMNode) (input : string) : M Upstream :=
  fun w => (Ok (process_stream env (log w) llm input),
            record (ProcessStream llm input) w).

(** *** The methods of [ConversationService] *)

Definition _get_api_key_and_provider (model_name : string)
  : result (string * string) :=
  if bool_decide (model_name ∈ openai_models) then
    Ok (OPENAI_API_KEY env, "openai")
  else if bool_decide (model_name ∈ anthropic_models) then
    Ok (ANTHROPIC_API_KEY env, "anthropic")
  else Raise (APIError 400 "Invalid model name").

Definition _get_bot_config (bot_id : string) : M BotConfig :=
  bot <- call_bot_repo bot_id ;;
  match bot with
  | None => raise (APIError 404 "Bot not found")
  | Some _ =>
      config <- call_bot_config_repo bot_id ;;
      match config with
      | None => raise (APIError 404 "Bot config not found")
      | Some config => ret config
      end
  end.

Definition _create_payload (schema : CreateMessageRequest) : M Payload :=
  id <- match req_id schema with
        | Some s => if truthy (Some s) then ret s else fresh_uuid
        | None => fresh_uuid
        end ;;
  ret {| p_content := req_content schema;
         p_role := "user";
         p_id := id;
         p_parent_id := if truthy (req_parent_id schema)
                        then req_parent_id schema else None;
         p_status := "completed" |}.

Definition _post_user_message (thread_id : string) (payload : Payload)
  : M MessageData :=
  call_nexus_post (messages_path thread_id) payload.

Definition _get_formatted_history (thread_id branch last_message_id : string)
  : M (list Turn) :=
  messages <- call_nexus_get (messages_path thread_id) last_message_id branch ;;
  ret (map (fun message => {| role := sm_role message;
                              turn_content := sm_content message |}) messages).

Definition _post_assistant_message
    (thread_id assistant_msg_id content user_msg_id : string) : M unit :=
  call_nexus_post (messages_path thread_id)
    {| p_id := assistant_msg_id;
       p_content := content;
       p_status := "completed";
       p_parent_id := Some user_msg_id;
       p_role := "assistant" |} ;;
  ret tt.

Definition _initialize_llm (api_key provider : string) (config : BotConfig)
    (system_message : string) : LLMNode :=
  {| llm_config :=
       {| provider := provider;
          api_key := api_key;
          model := model_name config;
          llm_temperature := temperature config;
          max_tokens := max_output_tokens config;
          streaming := {| enabled := true; chunk_size := 10 |} |};
     prompt_config :=
       {| input_type := USER_PROMPT;
          base_system_prompt := system_message;
          template := "{input}" |};
     conversation := [] |}.

(** [llm.conversation.add_message(role=..., content=...)]. *)
Definition add_message (llm : LLMNode) (message : Turn) : LLMNode :=
  {| llm_config := llm_config llm;
     prompt_config := prompt_config llm;
     conversation := conversation llm ++ [message] |}.

(** *** The generator [_handle_streaming_response] *)

(** Lines 88 to 98: build the node, replay [formatted_history[:-1]], open the
    provider stream on [schema.content]. *)
Definition open_stream (a : StreamArgs) : M Upstream :=
  let system_message := custom_instructions (config a) in
  let llm := _initialize_llm (arg_api_key a) (arg_provider a) (config a)
               system_message in
  let llm := fold_left add_message (removelast (formatted_history a)) llm in
  call_process_stream llm (req_content (schema a)).

(** [if chunk.content: accumulated_content.append(chunk.content)]. *)
Definition accumulate (accumulated_content : list string) (chunk : StreamChunk)
  : list string :=
  match content chunk with
  | Some s => if truthy (Some s) then accumulated_content ++ [s]
              else accumulated_content
  | None => accumulated_content
  end.

(** One turn of [async for chunk in ...] up to [yield chunk]. *)
Definition next_chunk (a : StreamArgs) (accumulated_content : list string)
    (up : Upstream) : Outcome * Generator :=
  match chunks up with
  | [] => (match failure up with
           | Some e => Raised e
           | None => StopAsyncIteration
           end, Finished)
  | chunk :: rest =>
      (Yielded chunk,
       Suspended a (accumulate accumulated_content chunk) chunk
         {| chunks := rest; failure := failure up |})
  end.

(** The body of [if chunk.done:], lines 104 to 125. *)
Definition on_done (a : StreamArgs) (accumulated_content : list string)
    (chunk : StreamChunk) : M unit :=
  let full_content := String.concat "" accumulated_content in
  _post_assistant_message (thread_id a) (assistant_msg_id a) full_content
    (user_msg_id a) ;;
  let usage := metadata chunk !! "usage" in
  request_id <- fresh_uuid ;;
  payload_usage <-
    match usage with
    | Some usage =>
        ret {| account_id := "067423b0-81fa-702b-8000-b03b6db1eb93";
               ev_model_name := model_name (config a);
               input_tokens := usage !! "prompt_tokens";
               output_tokens := usage !! "completion_tokens";
               request_id := request_id;
               user_id := current_user_id env;
               tenant_id := current_tenant_id env;
               ip_address := "127.0.0.1";
               user_agent := "" |}
    | None => raise (AttributeError "'NoneType' object has no attribute 'get'")
    end ;;
  call_frost_post "api/v1/events" payload_usage ;;
  call_db_commit.

(** Resuming the generator: run it to its next [yield], to its end, or to
    the exception that leaves it. *)
Definition anext (g : Generator) (w : World) : Outcome * Generator * World :=
  match g with
  | Created a =>
      match open_stream a w with
      | (Ok up, w') => (next_chunk a [] up, w')
      | (Raise e, w') => (Raised e, Finished, w')
      end
  | Suspended a accumulated_content chunk up =>
      if done chunk then
        match on_done a accumulated_content chunk w with
        | (Ok _, w') => (next_chunk a accumulated_content up, w')
        | (Raise e, w') => (Raised e, Finished, w')
        end
      else (next_chunk a accumulated_content up, w)
  | Finished => (StopAsyncIteration, Finished, w)
  end.

(** Closing the generator throws [GeneratorExit] at the [yield] it is parked
    on; no handler surrounds that [yield], so the generator just ends. *)
Definition aclose (g : Generator) (w : World) : Generator * World :=
  (Finished, w).

Definition _handle_streaming_response (schema : CreateMessageRequest)
    (api_key provider : string) (config : BotConfig)
    (thread_id user_msg_id assistant_msg_id : string)
    (formatted_history : list Turn) : Generator :=
  Created {| schema := schema;
             arg_api_key := api_key;
             arg_provider := provider;
             config := config;
             thread_id := thread_id;
             user_msg_id := user_msg_id;
             assistant_msg_id := assistant_msg_id;
             formatted_history := formatted_history |}.

Definition process_user_message (bot_id thread_id : string)
    (schema : CreateMessageRequest) (stream : bool) : M Generator :=
  if negb stream then
    raise (APIError 405 "Non-streaming responses are not implemented yet")
  else
    config <- _get_bot_config bot_id ;;
    key_provider <- lift (_get_api_key_and_provider (model_name config)) ;;
    payload <- _create_payload schema ;;
    user_message <- _post_user_message thread_id payload ;;
    formatted_history <-
      _get_formatted_history thread_id (branch_id user_message)
        (msg_id user_message) ;;
    ret (_handle_streaming_response schema (fst key_provider)
           (snd key_provider) config thread_id (msg_id user_message)
           (response_id schema) formatted_history).

(** *** The consumer of the generator *)

(** The caller's [async for]: pull until the generator stops or raises. *)
Fixpoint consume (fuel : nat) (g : Generator) (w : World)
  : list StreamChunk * Ending * World :=
  match fuel with
  | O => ([], Pending g, w)
  | S fuel =>
      match anext g w with
      | (Yielded chunk, g', w') =>
          let '(ys, ending, w'') := consume fuel g' w' in
          (chunk :: ys, ending, w'')
      | (StopAsyncIteration, _, w') => ([], Exhausted, w')
      | (Raised e, _, w') => ([], Failed e, w')
      end
  end.

(** An arbitrary caller: any sequence of pulls and closes. *)
Fixpoint drive (ops : list Op) (g : Generator) (w : World)
  : list Outcome * Generator * World :=
  match ops with
  | [] => ([], g, w)
  | Anext :: ops =>
      let '(o, g', w') := anext g w in
      let '(os, g'', w'') := drive ops g' w' in
      (o :: os, g'', w'')
  | Aclose :: ops =>
      let '(g', w') := aclose g w in
      drive ops g' w'
  end.

End Service.


(** ** Reading the log *)

(** The bodies the message store accepted, oldest first. *)
Definition persisted (l : list Event) : list Payload :=
  omap (fun e => match e with
                 | NexusPost _ json true => Some json
                 | _ => None
                 end) l.

(** The assistant-message writes requested from the message store. *)
Definition assistant_writes (l : list Event) : list Payload :=
  omap (fun e => match e with
                 | NexusPost _ json _ =>
                     if String.eqb (p_role json) "assistant" then Some json
                     else None
                 | _ => None
                 end) l.

(** The usage events posted to the telemetry sink. *)
Definition usage_posts (l : list Event) : list UsageEvent :=
  omap (fun e => match e with
                 | FrostPost _ json _ => Some json
                 | _ => None
                 end) l.

(** The number of [db.commit()] calls. *)
Definition commits (l : list Event) : nat :=
  length (omap (fun e => match e with
                         | DbCommit _ => Some tt
                         | _ => None
                         end) l).

(** The chunks a caller received. *)
Definition yielded (os : list Outcome) : list StreamChunk :=
  omap (fun o => match o with
                 | Yielded chunk => Some chunk
                 | _ => None
                 end) os.

(** The non-empty text deltas of a chunk sequence, in order. *)
Definition deltas (cs : list StreamChunk) : list string :=
  omap (fun c => match content c with
                 | Some EmptyString => None
                 | other => other
                 end) cs.

(** ** A worked scenario *)

Module Scenario.

Definition delta (s : string) : StreamChunk :=
  {| content := Some s; metadata := ∅; done := false |}.

Definition final (s : string) (prompt_tokens completion_tokens : Z) : StreamChunk :=
  {| content := Some s;
     metadata := {[ "usage" := {[ "prompt_tokens" := prompt_tokens;
                                  "completion_tokens" := completion_tokens ]} ]};
     done := true |}.

Definition the_config : BotConfig :=
  {| model_name := "gpt-4o"; temperature := 0.5%float; max_output_tokens := 256;
     custom_instructions := "Be brief." |}.

(** Every collaborator answers; the store echoes the identifier and puts the
    message on branch ["b1"]. *)
Definition happy (cfg : BotConfig) (history : list StoredMessage)
    (up : Upstream) : Env :=
  {| OPENAI_API_KEY := "sk-openai";
     ANTHROPIC_API_KEY := "sk-anthropic";
     current_user_id := Some "u1";
     current_tenant_id := Some "t1";
     uuid7 := fun n => "uuid-" +:+ pretty n;
     bot_repo_get := fun _ bot_id => Ok (Some {| bot_id_of := bot_id |});
     bot_config_repo_get := fun _ _ => Ok (Some cfg);
     nexus_post := fun _ _ json => Ok {| msg_id := p_id json; branch_id := "b1" |};
     nexus_get := fun _ _ _ _ => Ok history;
     frost_post := fun _ _ _ => Ok tt;
     db_commit := fun _ => Ok tt;
     process_stream := fun _ _ _ => up |}.

Definition hello : CreateMessageRequest :=
  {| req_content := "hello"; req_id := Some "m1"; req_parent_id := None;
     response_id := "r1" |}.

(** The provider streams ["Hi"], [" there"] and an empty terminal chunk with
    usage 5 and 2. *)
Definition hi_there : Upstream :=
  {| chunks := [delta "Hi"; delta " there"; final "" 5 2]; failure := None |}.

Definition empty_world : World := {| log := []; uuid_calls := 0 |}.

(** The arguments [process_user_message] hands to the generator for [hello]
    when the store answers with [history]. *)
Definition hello_args (history : list Turn) : StreamArgs :=
  {| schema := hello;
     arg_api_key := "sk-openai";
     arg_provider := "openai";
     config := the_config;
     thread_id := "T1";
     user_msg_id := "m1";
     assistant_msg_id := "r1";
     formatted_history := history |}.

(** A terminal chunk whose metadata has no usage entry, after one delta. *)
Definition no_usage : Upstream :=
  {| chunks := [delta "Hi";
                {| content := Some ""; metadata := ∅; done := true |}];
     failure := None |}.

(** A stream the provider breaks off before any terminal chunk. *)
Definition broken : Upstream :=
  {| chunks := [delta "Hi"; delta " there"];
     failure := Some (ExternalError "provider") |}.

(** A store that does not yet list the message just posted. *)
Definition stale_history : list StoredMessage :=
  [{| sm_id := "m0"; sm_role := "user"; sm_content := "hi" |};
   {| sm_id := "r0"; sm_role := "assistant"; sm_content := "hello, how can I help?" |}].

(** A store that lists the message just posted last. *)
Definition fresh_history : list StoredMessage :=
  [{| sm_id := "m0"; sm_role := "user"; sm_content := "hi" |};
   {| sm_id := "r0"; sm_role := "assistant"; sm_content := "hello, how can I help?" |};
   {| sm_id := "m1"; sm_role := "user"; sm_content := "hello" |}].

Definition end_to_end (e : Env) (fuel : nat) : option (list StreamChunk * Ending * World) :=
  match process_user_message e "bot1" "T1" hello true empty_world with
  | (Ok g, w) => Some (consume e fuel g w)
  | (Raise _, _) => None
  end.

(** The same environment with one collaborator answering differently. *)
Definition with_nexus_get (e : Env)
    (f : list Event -> string -> string -> string -> result (list StoredMessage))
  : Env :=
  {| OPENAI_API_KEY := OPENAI_API_KEY e;
     ANTHROPIC_API_KEY := ANTHROPIC_API_KEY e;
     current_user_id := current_user_id e;
     current_tenant_id := current_tenant_id e;
     uuid7 := uuid7 e;
     bot_repo_get := bot_repo_get e;
     bot_config_repo_get := bot_config_repo_get e;
     nexus_post := nexus_post e;
     nexus_get := f;
     frost_post := frost_post e;
     db_commit := db_commit e;
     process_stream := process_stream e |}.

Definition with_frost_post (e : Env)
    (f : list Event -> string -> UsageEvent -> result unit) : Env :=
  {| OPENAI_API_KEY := OPENAI_API_KEY e;
     ANTHROPIC_API_KEY := ANTHROPIC_API_KEY e;
     current_user_id := current_user_id e;
     current_tenant_id := current_tenant_id e;
     uuid7 := uuid7 e;
     bot_repo_get := bot_repo_get e;
     bot_config_repo_get := bot_config_repo_get e;
     nexus_post := nexus_post e;
     nexus_get := nexus_get e;
     frost_post := f;
     db_commit := db_commit e;
     process_stream := process_stream e |}.

End Scenario.

(** The node the generator opens the provider stream on, and the stream the
    provider answers with when the generator is first resumed in [w]. *)
Definition session (a : StreamArgs) : LLMNode :=
  fold_left add_message (removelast (formatted_history a))
    (_initialize_llm (arg_api_key a) (arg_provider a) (config a)
       (custom_instructions (config a))).

Definition upstream_of (env : Env) (a : StreamArgs) (w : World) : Upstream :=
  process_stream env (log w) (session a) (req_content (schema a)).

(** The assistant message [_post_assistant_message] sends for an accumulator,
    and the usage event built from a usage dictionary. *)
Definition assistant_message (a : StreamArgs) (accumulated_content : list string)
  : Payload :=
  {| p_id := assistant_msg_id a;
     p_content := String.concat "" accumulated_content;
     p_status := "completed";
     p_parent_id := Some (user_msg_id a);
     p_role := "assistant" |}.

Definition usage_event (env : Env) (a : StreamArgs) (request_id : string)
    (usage : gmap string Z) : UsageEvent :=
  {| account_id := "067423b0-81fa-702b-8000-b03b6db1eb93";
     ev_model_name := model_name (config a);
     input_tokens := usage !! "prompt_tokens";
     output_tokens := usage !! "completion_tokens";
     request_id := request_id;
     user_id := current_user_id env;
     tenant_id := current_tenant_id env;
     ip_address := "127.0.0.1";
     user_agent := "" |}.

(** The five ways the body of [if chunk.done:] can go from the world [w]:
    its result and the calls it makes, for the accumulator [acc] and the
    terminal chunk [c]. *)
Inductive Completion (env : Env) (a : StreamArgs) (acc : list string)
    (c : StreamChunk) (w : World) : result unit -> list Event -> Prop :=
  | write_refused e :
      nexus_post env (log w) (messages_path (thread_id a))
        (assistant_message a acc) = Raise e ->
      Completion env a acc c w (Raise e)
        [NexusPost (messages_path (thread_id a)) (assistant_message a acc) false]
  | usage_missing :
      is_ok (nexus_post env (log w) (messages_path (thread_id a))
               (assistant_message a acc)) = true ->
      metadata c !! "usage" = None ->
      Completion env a acc c w
        (Raise (AttributeError "'NoneType' object has no attribute 'get'"))
        [NexusPost (messages_path (thread_id a)) (assistant_message a acc) true]
  | usage_refused u e :
      is_ok (nexus_post env (log w) (messages_path (thread_id a))
               (assistant_message a acc)) = true ->
      metadata c !! "usage" = Some u ->
      frost_post env
        (log w ++ [NexusPost (messages_path (thread_id a))
                     (assistant_message a acc) true])
        "api/v1/events" (usage_event env a (uuid7 env (uuid_calls w)) u)
      = Raise e ->
      Completion env a acc c w (Raise e)
        [NexusPost (messages_path (thread_id a)) (assistant_message a acc) true;
         FrostPost "api/v1/events"
           (usage_event env a (uuid7 env (uuid_calls w)) u) false]
  | commit_refused u e :
      is_ok (nexus_post env (log w) (messages_path (thread_id a))
               (assistant_message a acc)) = true ->
      metadata c !! "usage" = Some u ->
      is_ok (frost_post env
               (log w ++ [NexusPost (messages_path (thread_id a))
                            (assistant_message a acc) true])
               "api/v1/events"
               (usage_event env a (uuid7 env (uuid_calls w)) u)) = true ->
      db_commit env
        (log w ++ [NexusPost (messages_path (thread_id a))
                     (assistant_message a acc) true]
               ++ [FrostPost "api/v1/events"
                     (usage_event env a (uuid7 env (uuid_calls w)) u) true])
      = Raise e ->
      Completion env a acc c w (Raise e)
        [NexusPost (messages_path (thread_id a)) (assistant_message a acc) true;
         FrostPost "api/v1/events"
           (usage_event env a (uuid7 env (uuid_calls w)) u) true;
         DbCommit false]
  | completed u :
      is_ok (nexus_post env (log w) (messages_path (thread_id a))
               (assistant_message a acc)) = true ->
      metadata c !! "usage" = Some u ->
      is_ok (frost_post env
               (log w ++ [NexusPost (messages_path (thread_id a))
                            (assistant_message a acc) true])
               "api/v1/events"
               (usage_event env a (uuid7 env (uuid_calls w)) u)) = true ->
      Completion env a acc c w (Ok tt)
        [NexusPost (messages_path (thread_id a)) (assistant_message a acc) true;
         FrostPost "api/v1/events"
           (usage_event env a (uuid7 env (uuid_calls w)) u) true;
         DbCommit true].

(** How the provider's stream ends for the caller. *)
Definition end_of (failure : option Exn) : Ending :=
  match failure with
  | Some e => Failed e
  | None => Exhausted
  end.

(** The loop of [_handle_streaming_response] as a caller that pulls to the
    end sees it, from the head of the loop with [cs] still to come: each
    chunk is accumulated and yielded, and the completion steps run when the
    caller comes back for the chunk after a terminal one. *)
Fixpoint play (env : Env) (a : StreamArgs) (acc : list string)
    (cs : list StreamChunk) (failure : option Exn) (w : World)
  : list StreamChunk * Ending * World :=
  match cs with
  | [] => ([], end_of failure, w)
  | chunk :: rest =>
      let acc := accumulate acc chunk in
      if done chunk then
        match on_done env a acc chunk w with
        | (Ok _, w') =>
            let '(ys, ending, w'') := play env a acc rest failure w' in
            (chunk :: ys, ending, w'')
        | (Raise e, w') => ([chunk], Failed e, w')
        end
      else
        let '(ys, ending, w'') := play env a acc rest failure w in
        (chunk :: ys, ending, w'')
  end.



(** The fields of a usage event that do not depend on the request. *)
Definition fixed_fields (env : Env) (ev : UsageEvent) : Prop :=
  account_id ev = "067423b0-81fa-702b-8000-b03b6db1eb93"
  /\ ip_address ev = "127.0.0.1"
  /\ user_agent ev = ""
  /\ user_id ev = current_user_id env
  /\ tenant_id ev = current_tenant_id env.



(** ** The rest of the service and the other source files *)

(** The body [_create_payload] builds for a request when [uuid7] has been
    called as often as in [w]. *)
Definition user_payload (env : Env) (schema : CreateMessageRequest) (w : World)
  : Payload :=
  {| p_id := match req_id schema with
             | Some (String ch rest) => String ch rest
             | _ => uuid7 env (uuid_calls w)
             end;
     p_content := req_content schema;
     p_status := "completed";
     p_parent_id := match req_parent_id schema with
                    | Some (String ch rest) => Some (String ch rest)
                    | _ => None
                    end;
     p_role := "user" |}.

(** The provider streams opened, with the node and the input of each. *)
Definition opens (l : list Event) : list (LLMNode * string) :=
  omap (fun e => match e with
                 | ProcessStream llm input => Some (llm, input)
                 | _ => None
                 end) l.

(** Every commit in [l] comes right after an accepted assistant write and an
    accepted usage post. *)
Definition commits_guarded (l : list Event) : Prop :=
  forall i ok,
    l !! i = Some (DbCommit ok) ->
    exists j path message ev,
      i = S (S j)
      /\ l !! j = Some (NexusPost path message true)
      /\ p_role message = "assistant"
      /\ l !! S j = Some (FrostPost "api/v1/events" ev true).

Definition newline : string := String (Ascii.ascii_of_nat 10) EmptyString.

(** What [print(f"{chunk.content}", end="")] writes. *)
Definition format_content (c : option string) : string :=
  match c with
  | Some s => s
  | None => "None"
  end.

(** [ConversationService.stream_callback], lines 70 to 74, as the text it
    writes to standard output; [print] ends the banner with a newline of its
    own. *)
Definition stream_callback (chunk : StreamChunk) : string :=
  format_content (content chunk)
  +:+ (if done chunk
       then newline +:+ "--- Stream completed ---" +:+ newline +:+ newline
       else "").

(** The output of calling a callback on each chunk in turn. *)
Definition printed (callback : StreamChunk -> string) (cs : list StreamChunk)
  : string :=
  String.concat "" (map callback cs).

(** [chainable_llm/examples/streaming.py]. *)
Module StreamingExample.

Definition stream_callback (chunk : StreamChunk) : string :=
  format_content (content chunk)
  +:+ (if done chunk
       then newline +:+ "--- Stream completed ---" +:+ newline
       else "").

(** The arguments [main] calls [LLMNode] with: here the key comes from the
    environment and may be absent. *)
Record Node := {
  name : string;
  node_provider : string;
  node_api_key : option string;
  node_model : string;
  node_streaming_enabled : bool;
  node_chunk_size : Z;
  buffer_size : Z;
  node_input_type : InputType;
  node_system_prompt : string;
  node_template : string;
}.

(** [main] either raises [ValueError] or goes on to construct the node from
    [node] and to stream [test_input] through it. *)
Inductive MainResult :=
  | ValueError (message : string)
  | Streaming (node : Node) (test_input : string).

(** [main], up to the construction of the node, for the two values
    [os.getenv] returned. *)
Definition main (openai_api_key anthropic_api_key : option string)
  : MainResult :=
  if negb (truthy openai_api_key) && negb (truthy anthropic_api_key) then
    ValueError "Missing API key in environment variables"
  else
    Streaming
      {| name := "streamer";
         node_provider := "anthropic";
         node_api_key := anthropic_api_key;
         node_model := "claude-3-5-sonnet-20240620";
         node_streaming_enabled := true;
         node_chunk_size := 10;
         buffer_size := 1024;
         node_input_type := USER_PROMPT;
         node_system_prompt := "You are a helpful assistant.";
         node_template := "Explain this topic in detail: {input}" |}
      "Explain the concept of quantum entanglement".

End StreamingExample.

(** [app/api/v1/endpoints/character.py]. *)
Module Character.

Inductive StatusEnum := ACTIVE.

Inductive FilterValue :=
  | Status (s : StatusEnum)
  | Uuid (u : string).

(** The arguments of [service.get_bots]. *)
Record GetBotsArgs := {
  filters : gmap string FilterValue;
  skip : Z;
  limit : Z;
  search_term : option string;
  search_fields : gmap string string;
}.

(** The arguments of [response.success]. *)
Record Response (D : Type) := {
  data : D;
  message : string;
  meta : gmap string Z;
}.
Arguments data {D} _.
Arguments message {D} _.
Arguments meta {D} _.

Section Endpoints.

Context {Item : Type}.
Context (get_bots : GetBotsArgs -> result (list Item * Z)).

(** [get_discovery_characters]; a UUID is always truthy, so [if category_id]
    tests for [None]. *)
Definition get_discovery_characters (skip limit : Z)
    (category_id : option string) (name : option string)
  : result (Response (list Item)) :=
  let filters : gmap string FilterValue := {[ "status" := Status ACTIVE ]} in
  let filters := match category_id with
                 | Some c => <["category_id" := Uuid c]> filters
                 | None => filters
                 end in
  let search_fields : gmap string string := {[ "name" := "contains" ]} in
  let search_term := if truthy name then name else None in
  match get_bots {| filters := filters; skip := skip; limit := limit;
                    search_term := search_term;
                    search_fields := search_fields |} with
  | Ok (items, total) =>
      Ok {| data := items;
            message := "Character fetched successfully";
            meta := {[ "total" := total ]} |}
  | Raise e => Raise e
  end.

End Endpoints.

End Character.

(** * Properties *)

(** ** Request validation and provider resolution *)

Lemma _get_bot_config_found env bot_id b cfg w :
  bot_repo_get env (log w) bot_id = Ok (Some b) ->
  bot_config_repo_get env (log w ++ [BotRepoGet bot_id]) bot_id = Ok (Some cfg) ->
  _get_bot_config env bot_id w
  = (Ok cfg, {| log := log w ++ [BotRepoGet bot_id; BotConfigRepoGet bot_id];
                uuid_calls := uuid_calls w |}).
Proof.
  intros Hb Hc.
  unfold _get_bot_config, bind, call_bot_repo, call_bot_config_repo, record.
  cbn. rewrite Hb. cbn. rewrite Hc. cbn.
  by rewrite <- app_assoc.
Qed.

(** C8: a model identifier in neither family makes the resolver raise the
    400 [APIError]; the resolver is a function of the settings and the
    identifier alone, and a request for a bot configured with such a model
    stops right after the two repository lookups, before anything is posted
    and before any provider stream is opened. *)
Theorem unsupported_model_rejected env m :
  m ∉ openai_models ->
  m ∉ anthropic_models ->
  _get_api_key_and_provider env m = Raise (APIError 400 "Invalid model name")
  /\ forall bot_id thread_id schema w b cfg,
       bot_repo_get env (log w) bot_id = Ok (Some b) ->
       bot_config_repo_get env (log w ++ [BotRepoGet bot_id]) bot_id
       = Ok (Some cfg) ->
       model_name cfg = m ->
       process_user_message env bot_id thread_id schema true w
       = (Raise (APIError 400 "Invalid model name"),
          {| log := log w ++ [BotRepoGet bot_id; BotConfigRepoGet bot_id];
             uuid_calls := uuid_calls w |}).
Proof.
  intros Ho Ha.
  assert (Hr : _get_api_key_and_provider env m
               = Raise (APIError 400 "Invalid model name")).
  { unfold _get_api_key_and_provider.
    rewrite (bool_decide_eq_false_2 _ Ho), (bool_decide_eq_false_2 _ Ha).
    reflexivity. }
  split; [exact Hr|].
  intros bot_id thread_id schema w b cfg Hb Hc Hm.
  unfold process_user_message. cbn [negb].
  unfold bind at 1. rewrite (_get_bot_config_found _ _ _ _ _ Hb Hc).
  unfold bind, lift. rewrite Hm, Hr. reflexivity.
Qed.

Lemma unsupported_model_rejected_witness :
  let cfg := {| model_name := "llama-3"; temperature := 0.5%float;
                max_output_tokens := 256; custom_instructions := "" |} in
  let env := Scenario.happy cfg [] Scenario.hi_there in
  _get_api_key_and_provider env "llama-3"
  = Raise (APIError 400 "Invalid model name")
  /\ process_user_message env "bot1" "T1" Scenario.hello true
       Scenario.empty_world
     = (Raise (APIError 400 "Invalid model name"),
        {| log := [BotRepoGet "bot1"; BotConfigRepoGet "bot1"];
           uuid_calls := 0 |}).
Proof.
  intros cfg env.
  assert (Ho : "llama-3" ∉ openai_models)
    by (apply (bool_decide_unpack _); vm_compute; exact I).
  assert (Ha : "llama-3" ∉ anthropic_models)
    by (apply (bool_decide_unpack _); vm_compute; exact I).
  destruct (unsupported_model_rejected env "llama-3" Ho Ha) as [Hr Hp].
  split; [exact Hr|].
  apply (Hp "bot1" "T1" Scenario.hello Scenario.empty_world
            {| bot_id_of := "bot1" |} cfg); reflexivity.
Defined.

Example resolve_openai env :
  _get_api_key_and_provider env "gpt-4" = Ok (OPENAI_API_KEY env, "openai").
Proof. reflexivity. Qed.

Example resolve_anthropic env :
  _get_api_key_and_provider env "claude-3-opus-20240229"
  = Ok (ANTHROPIC_API_KEY env, "anthropic").
Proof. reflexivity. Qed.

(** ** Failures before the stream is opened *)

Lemma persisted_app l1 l2 : persisted (l1 ++ l2) = persisted l1 ++ persisted l2.
Proof. apply omap_app. Qed.

Lemma assistant_writes_app l1 l2 :
  assistant_writes (l1 ++ l2) = assistant_writes l1 ++ assistant_writes l2.
Proof. apply omap_app. Qed.

Lemma usage_posts_app l1 l2 :
  usage_posts (l1 ++ l2) = usage_posts l1 ++ usage_posts l2.
Proof. apply omap_app. Qed.

Lemma commits_app l1 l2 : commits (l1 ++ l2) = (commits l1 + commits l2)%nat.
Proof. unfold commits. by rewrite omap_app, length_app. Qed.


Lemma bind_ok_inv {A B} (m : M A) (k : A -> M B) w b w' :
  bind m k w = (Ok b, w') ->
  exists a w1, m w = (Ok a, w1) /\ k a w1 = (Ok b, w').
Proof.
  unfold bind. destruct (m w) as [[a|e0] w1]; intros H.
  - eauto.
  - discriminate.
Qed.

(** What each step of [process_user_message] leaves in the log. *)
Lemma _get_bot_config_log env bot_id w r w' :
  _get_bot_config env bot_id w = (r, w') ->
  exists l, log w' = log w ++ BotRepoGet bot_id :: l
            /\ persisted (BotRepoGet bot_id :: l) = [].
Proof.
  unfold _get_bot_config, bind, call_bot_repo, call_bot_config_repo, record,
    ret, raise.
  destruct (bot_repo_get env (log w) bot_id) as [[b|]|e0]; cbn.
  - destruct (bot_config_repo_get env _ bot_id) as [[cfg|]|e0]; cbn;
      intros [= <- <-]; cbn;
      exists [BotConfigRepoGet bot_id];
      by rewrite <- app_assoc.
  - intros [= <- <-]. by exists [].
  - intros [= <- <-]. by exists [].
Qed.

Lemma _create_payload_ok env schema w :
  exists payload w',
    _create_payload env schema w = (Ok payload, w')
    /\ log w' = log w
    /\ p_role payload = "user"
    /\ p_content payload = req_content schema
    /\ p_status payload = "completed".
Proof.
  unfold _create_payload, bind, fresh_uuid, ret.
  destruct (req_id schema) as [s|]; [destruct (truthy (Some s))|];
    cbn; eauto 10.
Qed.

Lemma _post_user_message_log env thread_id payload w r w' :
  _post_user_message env thread_id payload w = (r, w') ->
  log w' = log w ++ [NexusPost (messages_path thread_id) payload (is_ok r)].
Proof.
  unfold _post_user_message, call_nexus_post, record.
  by intros [= <- <-].
Qed.

Lemma _get_formatted_history_log env thread_id branch last w r w' :
  _get_formatted_history env thread_id branch last w = (r, w') ->
  log w' = log w ++ [NexusGet (messages_path thread_id) last branch (is_ok r)].
Proof.
  unfold _get_formatted_history, bind, call_nexus_get, record, ret.
  destruct (nexus_get env (log w) (messages_path thread_id) last branch)
    as [msgs|e0] eqn:Hget; cbn; by intros [= <- <-].
Qed.

Lemma _create_payload_spec env schema w :
  _create_payload env schema w
  = (Ok (user_payload env schema w),
     {| log := log w;
        uuid_calls := if truthy (req_id schema) then uuid_calls w
                      else S (uuid_calls w) |}).
Proof.
  unfold _create_payload, user_payload, bind, fresh_uuid, ret.
  destruct (req_id schema) as [[|ch rest]|];
    destruct (req_parent_id schema) as [[|ch' rest']|]; cbn;
    by destruct w.
Qed.




(** ** Requests without streaming *)

Lemma bind_inv {A B} (m : M A) (k : A -> M B) w r w' :
  bind m k w = (r, w') ->
  (exists e, m w = (Raise e, w') /\ r = Raise e)
  \/ exists a w1, m w = (Ok a, w1) /\ k a w1 = (r, w').
Proof.
  unfold bind. destruct (m w) as [[a|e0] w1]; intros H.
  - right. eauto.
  - left. exists e0. by injection H as <- <-.
Qed.

(** A streaming request always starts with the bot lookup. *)
Lemma process_user_message_log env bot_id thread_id schema w r w' :
  process_user_message env bot_id thread_id schema true w = (r, w') ->
  exists l, log w' = log w ++ BotRepoGet bot_id :: l.
Proof.
  unfold process_user_message. cbn [negb]. intros H.
  apply bind_inv in H as [(e & H & _)|(cfg & w1 & Hcfg & H)].
  { apply _get_bot_config_log in H as (l & -> & _). eauto. }
  apply _get_bot_config_log in Hcfg as (l1 & Hw1 & _).
  assert (Hext : exists l2, log w' = log w1 ++ l2).
  { apply bind_inv in H as [(e & H & _)|(kp & w2 & Hkp & H)].
    { unfold lift in H. injection H as _ <-. exists []. by rewrite app_nil_r. }
    unfold lift in Hkp. injection Hkp as _ <-.
    destruct (_create_payload_ok env schema w1)
      as (payload & w3 & Hpay & Hw3 & _).
    apply bind_inv in H as [(e & H & _)|(payload' & w3' & Hpay' & H)];
      [congruence|].
    rewrite Hpay in Hpay'. injection Hpay' as <- <-.
    apply bind_inv in H as [(e & H & _)|(user_message & w4 & Hpost & H)].
    { apply _post_user_message_log in H. rewrite H, Hw3. eauto. }
    apply _post_user_message_log in Hpost.
    apply bind_inv in H as [(e & H & _)|(history & w5 & Hget & H)].
    { apply _get_formatted_history_log in H.
      rewrite H, Hpost, Hw3, <- app_assoc. eauto. }
    apply _get_formatted_history_log in Hget.
    unfold ret in H. injection H as _ <-.
    rewrite Hget, Hpost, Hw3, <- app_assoc. eauto. }
  destruct Hext as (l2 & ->). rewrite Hw1, <- app_assoc. cbn. eauto.
Qed.

(** C7: with streaming disabled, [process_user_message] raises the 405
    [APIError] at once and the world is untouched: no repository lookup, no
    message posted, no provider stream opened, no generator created.  The
    flag alone decides this: with streaming enabled the same request always
    makes at least the bot lookup. *)
Theorem non_streaming_rejected env bot_id thread_id schema w :
  process_user_message env bot_id thread_id schema false w
  = (Raise (APIError 405 "Non-streaming responses are not implemented yet"), w)
  /\ forall stream,
       (process_user_message env bot_id thread_id schema stream w).2 = w
       <-> stream = false.
Proof.
  split; [reflexivity|]. intros [|]; split; try done.
  intros Hw.
  destruct (process_user_message env bot_id thread_id schema true w)
    as [r w'] eqn:Hrun.
  apply process_user_message_log in Hrun as (l & Hlog).
  cbn in Hw. subst w'.
  apply (f_equal length) in Hlog. rewrite length_app in Hlog. cbn in Hlog. lia.
Qed.

Lemma non_streaming_rejected_witness :
  let env := Scenario.happy Scenario.the_config [] Scenario.hi_there in
  process_user_message env "bot1" "T1" Scenario.hello false Scenario.empty_world
  = (Raise (APIError 405 "Non-streaming responses are not implemented yet"),
     Scenario.empty_world)
  /\ (process_user_message env "bot1" "T1" Scenario.hello false
        Scenario.empty_world).2 = Scenario.empty_world.
Proof.
  intros env.
  destruct (non_streaming_rejected env "bot1" "T1" Scenario.hello
              Scenario.empty_world) as [Hraise Hflag].
  split; [exact Hraise|]. apply (Hflag false). reflexivity.
Defined.

(** ** The completion steps *)

Lemma on_done_spec env a acc c w r w' :
  on_done env a acc c w = (r, w') ->
  exists new, log w' = log w ++ new /\ Completion env a acc c w r new.
Proof.
  unfold on_done, _post_assistant_message, bind, call_nexus_post,
    call_frost_post, call_db_commit, fresh_uuid, ret, raise, record.
  fold (assistant_message a acc).
  destruct (nexus_post env (log w) (messages_path (thread_id a))
              (assistant_message a acc)) as [d|e] eqn:Hpost; cbn.
  2: { intros [= <- <-]. eexists. split; [reflexivity|].
       by apply write_refused. }
  assert (Hok : is_ok (nexus_post env (log w) (messages_path (thread_id a))
                         (assistant_message a acc)) = true)
    by (by rewrite Hpost).
  destruct (metadata c !! "usage") as [u|] eqn:Hu; cbn.
  2: { intros [= <- <-]. eexists. split; [reflexivity|].
       by apply usage_missing. }
  fold (usage_event env a (uuid7 env (uuid_calls w)) u).
  destruct (frost_post env _ "api/v1/events" _) as [[]|e] eqn:Hfrost; cbn.
  2: { intros [= <- <-]. eexists. split; [by rewrite <- app_assoc|].
       by eapply usage_refused. }
  assert (Hsent : is_ok (frost_post env
            (log w ++ [NexusPost (messages_path (thread_id a))
                         (assistant_message a acc) true])
            "api/v1/events"
            (usage_event env a (uuid7 env (uuid_calls w)) u)) = true)
    by (by rewrite Hfrost).
  destruct (db_commit env _) as [[]|e] eqn:Hcommit; cbn.
  - intros [= <- <-]. eexists. split; [by rewrite <- !app_assoc|].
    by apply completed.
  - intros [= <- <-]. eexists. split; [by rewrite <- !app_assoc|].
    apply commit_refused; [done..|]. by rewrite app_assoc.
Qed.


(** ** The generator and the caller that pulls to the end *)

Lemma anext_not_done env a acc c up w :
  done c = false ->
  anext env (Suspended a acc c up) w = (next_chunk a acc up, w).
Proof. intros H. cbn. by rewrite H. Qed.

Lemma anext_created env a w :
  anext env (Created a) w
  = (next_chunk a [] (upstream_of env a w),
     record (ProcessStream (session a) (req_content (schema a))) w).
Proof. reflexivity. Qed.

(** With fuel for every chunk and one more pull, [consume] from a generator
    parked on [c] sees what the loop sees after [yield c]. *)
Lemma consume_play env a : forall rest acc c fl w fuel,
  (length rest < fuel)%nat ->
  (let '(ys, ending, w') :=
     consume env fuel
       (Suspended a (accumulate acc c) c {| chunks := rest; failure := fl |}) w
   in (c :: ys, ending, w'))
  = play env a acc (c :: rest) fl w.
Proof.
  induction rest as [|c' rest IH]; intros acc c fl w fuel Hfuel.
  - destruct fuel as [|fuel]; [lia|]. cbn.
    destruct (done c).
    + destruct (on_done env a (accumulate acc c) c w) as [[[]|e] w1];
        cbn; [|done].
      by destruct fl.
    + cbn. by destruct fl.
  - destruct fuel as [|fuel]; [cbn in Hfuel; lia|].
    assert (Hf : (length rest < fuel)%nat) by (cbn in Hfuel; lia).
    cbn [consume play].
    change (anext env (Suspended a (accumulate acc c) c
                         {| chunks := c' :: rest; failure := fl |}) w)
      with (if done c
            then match on_done env a (accumulate acc c) c w with
                 | (Ok _, w1) =>
                     (next_chunk a (accumulate acc c)
                        {| chunks := c' :: rest; failure := fl |}, w1)
                 | (Raise e, w1) => (Raised e, Finished, w1)
                 end
            else (next_chunk a (accumulate acc c)
                    {| chunks := c' :: rest; failure := fl |}, w)).
    destruct (done c).
    + destruct (on_done env a (accumulate acc c) c w) as [[[]|e] w1];
        [|done].
      cbn [next_chunk chunks failure].
      specialize (IH (accumulate acc c) c' fl w1 fuel Hf).
      destruct (consume env fuel _ w1) as [[ys ending] w2].
      cbn [play] in IH. by rewrite <- IH.
    + cbn [next_chunk chunks failure].
      specialize (IH (accumulate acc c) c' fl w fuel Hf).
      destruct (consume env fuel _ w) as [[ys ending] w2].
      cbn [play] in IH. by rewrite <- IH.
Qed.

(** The same from a fresh generator: the caller sees the whole loop, run on
    the stream the provider opens. *)
Lemma consume_created env a w fuel :
  (length (chunks (upstream_of env a w)) < fuel)%nat ->
  consume env fuel (Created a) w
  = play env a [] (chunks (upstream_of env a w))
      (failure (upstream_of env a w))
      (record (ProcessStream (session a) (req_content (schema a))) w).
Proof.
  intros Hfuel. destruct fuel as [|fuel]; [lia|].
  cbn [consume]. rewrite anext_created. unfold next_chunk.
  destruct (upstream_of env a w) as [cs fl]. cbn [chunks failure] in *.
  destruct cs as [|c rest].
  - cbn. by destruct fl.
  - cbn in Hfuel. apply (consume_play env a rest [] c fl). lia.
Qed.

(** The accumulator holds the non-empty deltas of the chunks seen. *)
Lemma accumulate_deltas cs : forall acc,
  fold_left accumulate cs acc = acc ++ deltas cs.
Proof.
  induction cs as [|c cs IH]; intros acc; cbn.
  - by rewrite app_nil_r.
  - rewrite IH. unfold accumulate, deltas. cbn.
    destruct (content c) as [[|ch s]|]; cbn; by rewrite <- ?app_assoc.
Qed.


(** Chunks without the terminal flag pass through the loop and leave the
    world as it is. *)
Lemma play_quiet env a fl rest : forall pre acc w,
  Forall (fun c => done c = false) pre ->
  play env a acc (pre ++ rest) fl w
  = (let '(ys, ending, w') :=
       play env a (fold_left accumulate pre acc) rest fl w in
     (pre ++ ys, ending, w')).
Proof.
  induction pre as [|c pre IH]; intros acc w Hpre.
  - cbn. by destruct (play env a acc rest fl w) as [[ys ending] w'].
  - apply Forall_cons in Hpre as [Hc Hpre]. cbn. rewrite Hc.
    rewrite (IH _ _ Hpre).
    by destruct (play env a _ rest fl w) as [[ys ending] w'].
Qed.

(** What the caller receives is an initial part of what the provider
    emits. *)
Lemma play_prefix env a fl : forall cs acc w ys ending w',
  play env a acc cs fl w = (ys, ending, w') -> ys `prefix_of` cs.
Proof.
  induction cs as [|c cs IH]; intros acc w ys ending w'; cbn.
  - intros [= <- _ _]. done.
  - destruct (done c).
    + destruct (on_done env a (accumulate acc c) c w) as [[[]|e] w1].
      * destruct (play env a (accumulate acc c) cs fl w1)
          as [[ys1 ending1] w2] eqn:Hp.
        intros [= <- _ _]. apply prefix_cons. by eapply IH.
      * intros [= <- _ _]. apply prefix_cons, prefix_nil.
    + destruct (play env a (accumulate acc c) cs fl w)
        as [[ys1 ending1] w2] eqn:Hp.
      intros [= <- _ _]. apply prefix_cons. by eapply IH.
Qed.




(** ** Forwarding *)



(** The stream of one terminal chunk is forwarded as it is. *)
Example single_terminal_chunk_forwarded :
  let up := {| chunks := [Scenario.final "" 5 2]; failure := None |} in
  (consume (Scenario.happy Scenario.the_config [] up) 2
     (Created (Scenario.hello_args [])) Scenario.empty_world).1
  = ([Scenario.final "" 5 2], Exhausted).
Proof. reflexivity. Qed.

(** ** Completion *)

(** What a successful [process_user_message] has done and returns. *)
Lemma process_user_message_ok env bot_id thread schema w g w1 :
  process_user_message env bot_id thread schema true w = (Ok g, w1) ->
  exists cfg key prov payload user_message history l,
    g = _handle_streaming_response schema key prov cfg thread
          (msg_id user_message) (response_id schema) history
    /\ _get_api_key_and_provider env (model_name cfg) = Ok (key, prov)
    /\ p_role payload = "user"
    /\ p_content payload = req_content schema
    /\ nexus_post env l (messages_path thread) payload = Ok user_message
    /\ log w1
       = l ++ [NexusPost (messages_path thread) payload true;
               NexusGet (messages_path thread) (msg_id user_message)
                 (branch_id user_message) true].
Proof.
  unfold process_user_message. cbn [negb]. intros H.
  apply bind_ok_inv in H as (cfg & w2 & _ & H).
  apply bind_ok_inv in H as ([key prov] & w3 & Hkp & H).
  unfold lift in Hkp. injection Hkp as Hkp <-.
  destruct (_create_payload_ok env schema w2)
    as (payload & w4 & Hpay & Hw4 & Hrole & Hcontent & _).
  apply bind_ok_inv in H as (payload' & w4' & Hpay' & H).
  rewrite Hpay in Hpay'. injection Hpay' as <- <-.
  apply bind_ok_inv in H as (user_message & w5 & Hpost & H).
  apply bind_ok_inv in H as (history & w6 & Hget & H).
  unfold ret in H. injection H as <- <-.
  exists cfg, key, prov, payload, user_message, history, (log w4).
  split; [done|]. split; [done|]. split; [done|]. split; [done|].
  pose proof (_post_user_message_log _ _ _ _ _ _ Hpost) as Hl5.
  pose proof (_get_formatted_history_log _ _ _ _ _ _ _ Hget) as Hl6.
  cbn in Hl5, Hl6. split.
  - unfold _post_user_message, call_nexus_post in Hpost.
    by injection Hpost as -> _.
  - by rewrite Hl6, Hl5, <- app_assoc.
Qed.

(** The loop on a stream whose only terminal chunk is the last one: every
    chunk is forwarded, then the completion steps run once, on the deltas of
    the whole stream. *)
Lemma play_to_terminal env a fl pre t acc w :
  Forall (fun c => done c = false) pre ->
  done t = true ->
  exists r w',
    on_done env a (acc ++ deltas (pre ++ [t])) t w = (r, w')
    /\ play env a acc (pre ++ [t]) fl w
       = (pre ++ [t],
          match r with Ok _ => end_of fl | Raise e => Failed e end, w').
Proof.
  intros Hpre Ht. rewrite (play_quiet _ _ _ _ _ _ _ Hpre). cbn [play].
  rewrite Ht.
  replace (accumulate (fold_left accumulate pre acc) t)
    with (acc ++ deltas (pre ++ [t]))
    by (rewrite <- accumulate_deltas, fold_left_app; done).
  destruct (on_done env a (acc ++ deltas (pre ++ [t])) t w) as [r w'].
  exists r, w'. split; [done|]. by destruct r as [[]|e].
Qed.






(** The scenario of the specification: the assistant message reads
    ["Hi there"] and the usage event counts 5 and 2. *)
Example hi_there_persisted :
  let env := Scenario.happy Scenario.the_config [] Scenario.hi_there in
  let w' := (consume env 4 (Created (Scenario.hello_args []))
               Scenario.empty_world).2 in
  map p_content (assistant_writes (log w')) = ["Hi there"]
  /\ map input_tokens (usage_posts (log w')) = [Some 5]
  /\ map output_tokens (usage_posts (log w')) = [Some 2]
  /\ commits (log w') = 1%nat.
Proof. repeat split; reflexivity. Qed.

(** ** Usage problems *)

(** C4 (as the code has it): on the terminal chunk the assistant message is
    written before the usage is read, so a missing usage entry or a usage
    post that raises leaves that write in the message store; but neither is
    absorbed: the exception leaves the generator, and [db.commit()], which
    comes after the usage post, is not called. *)
Theorem usage_failure_after_write env a w pre t fuel :
  chunks (upstream_of env a w) = pre ++ [t] ->
  Forall (fun c => done c = false) pre ->
  done t = true ->
  (forall l json,
     is_ok (nexus_post env l (messages_path (thread_id a)) json) = true) ->
  (length pre + 1 < fuel)%nat ->
  let opened := ProcessStream (session a) (req_content (schema a)) in
  let written := NexusPost (messages_path (thread_id a))
                   (assistant_message a (deltas (pre ++ [t]))) true in
  (metadata t !! "usage" = None ->
   exists w2,
     consume env fuel (Created a) w
     = (pre ++ [t],
        Failed (AttributeError "'NoneType' object has no attribute 'get'"), w2)
     /\ log w2 = log w ++ [opened; written])
  /\ (forall u e,
        metadata t !! "usage" = Some u ->
        (forall l path json, frost_post env l path json = Raise e) ->
        exists w2,
          consume env fuel (Created a) w = (pre ++ [t], Failed e, w2)
          /\ log w2
             = log w ++
               [opened; written;
                FrostPost "api/v1/events"
                  (usage_event env a (uuid7 env (uuid_calls w)) u) false]).
Proof.
  intros Hcs Hpre Ht Hacc Hfuel opened written.
  assert (Hlen : (length (chunks (upstream_of env a w)) < fuel)%nat)
    by (rewrite Hcs, length_app; cbn; lia).
  rewrite (consume_created _ _ _ _ Hlen), Hcs.
  match goal with |- context [play env a [] _ ?fl0 ?w0] =>
    destruct (play_to_terminal env a fl0 pre t [] w0 Hpre Ht)
      as (r & w2 & Hdone & Hplay) end.
  rewrite Hplay. cbn [app] in Hdone.
  apply on_done_spec in Hdone as (new & Hnew & Hc).
  cbn [log record] in Hnew.
  assert (Hwrite : forall e,
            nexus_post env (log w ++ [opened]) (messages_path (thread_id a))
              (assistant_message a (deltas (pre ++ [t]))) <> Raise e).
  { intros e He. specialize (Hacc (log w ++ [opened])
      (assistant_message a (deltas (pre ++ [t])))).
    rewrite He in Hacc. discriminate. }
  split.
  - intros Hnone. exists w2.
    inversion Hc as [e He|Hok _|u' e Hok Hsome Hfrost
                    |u' e Hok Hsome Hsent Hcommit|u' Hok Hsome Hsent];
      subst new; try congruence.
    + by destruct (Hwrite e).
    + split; [reflexivity|]. by rewrite Hnew, <- app_assoc.
  - intros u e Hu Hfrost. exists w2.
    inversion Hc as [e' He|Hok Hnone|u' e' Hok Hsome Hfrost'
                    |u' e' Hok Hsome Hsent Hcommit|u' Hok Hsome Hsent];
      subst new; try congruence.
    + by destruct (Hwrite e').
    + rewrite Hu in Hsome. injection Hsome as <-.
      rewrite Hfrost in Hfrost'. injection Hfrost' as <-.
      split; [reflexivity|]. by rewrite Hnew, <- app_assoc.
    + rewrite Hfrost in Hsent. discriminate.
    + rewrite Hfrost in Hsent. discriminate.
Qed.

Lemma usage_failure_after_write_witness :
  let env := Scenario.happy Scenario.the_config [] Scenario.no_usage in
  let a := Scenario.hello_args [] in
  exists w2,
    consume env 3 (Created a) Scenario.empty_world
    = (chunks Scenario.no_usage,
       Failed (AttributeError "'NoneType' object has no attribute 'get'"), w2)
    /\ log w2
       = [ProcessStream (session a) "hello";
          NexusPost (messages_path "T1")
            (assistant_message a (deltas (chunks Scenario.no_usage))) true].
Proof.
  intros env a.
  destruct (usage_failure_after_write env a Scenario.empty_world
              [Scenario.delta "Hi"]
              {| content := Some ""; metadata := ∅; done := true |} 3)
    as [Hmissing _].
  - reflexivity.
  - repeat constructor.
  - reflexivity.
  - intros l json. reflexivity.
  - cbn. lia.
  - apply Hmissing. reflexivity.
Defined.

(** C4, the claim as stated fails: with no usage entry on the terminal chunk,
    and likewise with a usage post that raises, the assistant message is in
    the store, the caller gets the exception, and nothing is committed. *)
Lemma usage_problems_skip_commit :
  let run1 := consume (Scenario.happy Scenario.the_config [] Scenario.no_usage)
                3 (Created (Scenario.hello_args [])) Scenario.empty_world in
  let run2 := consume
                (Scenario.with_frost_post
                   (Scenario.happy Scenario.the_config [] Scenario.hi_there)
                   (fun _ _ _ => Raise (ExternalError "frost")))
                4 (Created (Scenario.hello_args [])) Scenario.empty_world in
  (run1.1.2 = Failed (AttributeError "'NoneType' object has no attribute 'get'")
   /\ map p_content (persisted (log run1.2)) = ["Hi"]
   /\ commits (log run1.2) = 0%nat)
  /\ (run2.1.2 = Failed (ExternalError "frost")
      /\ map p_content (persisted (log run2.2)) = ["Hi there"]
      /\ commits (log run2.2) = 0%nat).
Proof. repeat split; reflexivity. Qed.

(** ** Arbitrary callers *)

Lemma anext_outcome env g w o g' w' :
  anext env g w = (o, g', w') ->
  match o with
  | Yielded c => exists a acc up, g' = Suspended a acc c up
  | _ => g' = Finished
  end.
Proof.
  assert (Hn : forall a acc up o g',
            next_chunk a acc up = (o, g') ->
            match o with
            | Yielded c => exists a acc up, g' = Suspended a acc c up
            | _ => g' = Finished
            end).
  { intros a acc [cs fl] o1 g1. unfold next_chunk. cbn.
    destruct cs as [|c cs]; [destruct fl|]; intros [= <- <-]; eauto. }
  destruct g as [a|a acc c up|]; cbn.
  - destruct (next_chunk a [] _) as [o1 g1] eqn:Hnext.
    intros [= <- <- _]. by eapply Hn.
  - destruct (done c).
    + destruct (on_done env a acc c w) as [[[]|e] w1].
      * destruct (next_chunk a acc up) as [o1 g1] eqn:Hnext.
        intros [= <- <- _]. by eapply Hn.
      * by intros [= <- <- _].
    + destruct (next_chunk a acc up) as [o1 g1] eqn:Hnext.
      intros [= <- <- _]. by eapply Hn.
  - by intros [= <- <- _].
Qed.


(** The calls one pull adds to the log. *)
Lemma anext_new env g w o g' w' :
  anext env g w = (o, g', w') ->
  exists new,
    log w' = log w ++ new
    /\ match g with
       | Created a => new = [ProcessStream (session a) (req_content (schema a))]
       | Suspended a acc c _ =>
           if done c then exists r, Completion env a acc c w r new
           else new = []
       | Finished => new = []
       end.
Proof.
  destruct g as [a|a acc c up|]; cbn.
  - destruct (next_chunk a [] _) as [o1 g1]. intros [= _ _ <-]. eauto.
  - destruct (done c).
    + destruct (on_done env a acc c w) as [r w1] eqn:Hd.
      apply on_done_spec in Hd as (new & Hnew & Hc).
      destruct r as [[]|e]; [destruct (next_chunk a acc up)|];
        intros [= _ _ <-]; eauto.
    + destruct (next_chunk a acc up). intros [= _ _ <-].
      exists []. by rewrite app_nil_r.
  - intros [= _ _ <-]. exists []. by rewrite app_nil_r.
Qed.

Lemma completion_facts env a acc c w r new :
  Completion env a acc c w r new ->
  Forall (fixed_fields env) (usage_posts new)
  /\ length (assistant_writes new) = 1%nat
  /\ (commits new <= length (usage_posts new))%nat
  /\ (length (usage_posts new) <= 1)%nat.
Proof.
  intros H. inversion H; subst; cbn; repeat split;
    try lia; repeat constructor.
Qed.

Lemma drive_finished env : forall ops w os g' w',
  drive env ops Finished w = (os, g', w') ->
  g' = Finished /\ w' = w /\ yielded os = [] /\ forall e, Raised e ∉ os.
Proof.
  induction ops as [|[|] ops IH]; intros w os g' w'; cbn.
  - intros [= <- <- <-]. repeat split. intros e He. by apply elem_of_nil in He.
  - destruct (drive env ops Finished w) as [[os1 g1] w1] eqn:Hd.
    intros [= <- <- <-]. destruct (IH _ _ _ _ Hd) as (-> & -> & Hy & Hr).
    repeat split; [done|]. intros e He. apply elem_of_cons in He as [He|He].
    + discriminate.
    + by apply (Hr e).
  - apply IH.
Qed.

(** A generator that was closed, or that raised, is finished: it holds no
    accumulator any more. *)
Lemma drive_closed env : forall ops g w os g' w',
  drive env ops g w = (os, g', w') ->
  Aclose ∈ ops \/ (exists e, Raised e ∈ os) ->
  g' = Finished.
Proof.
  induction ops as [|[|] ops IH]; intros g w os g' w'; cbn.
  - intros [= <- <- <-] [H|[e H]]; by apply elem_of_nil in H.
  - destruct (anext env g w) as [[o g1] w1] eqn:Hstep.
    destruct (drive env ops g1 w1) as [[os1 g2] w2] eqn:Hd.
    intros [= <- <- <-] [H|[e H]].
    + apply elem_of_cons in H as [H|H]; [discriminate|]. eapply IH; eauto.
    + apply elem_of_cons in H as [<-|H].
      * apply anext_outcome in Hstep. cbn in Hstep. subst g1.
        by apply drive_finished in Hd as (-> & _).
      * eapply IH; eauto.
  - intros Hd _. unfold aclose in Hd. by apply drive_finished in Hd as (-> & _).
Qed.

(** ** Usage events *)

(** C9: whatever the caller does and whatever state the generator is in,
    every usage event posted carries the account identifier
    ["067423b0-81fa-702b-8000-b03b6db1eb93"], the address ["127.0.0.1"] and
    an empty user agent, and takes its user and tenant from the context
    variables. *)
Theorem usage_event_fixed_fields env : forall ops g w,
  exists new,
    log (drive env ops g w).2 = log w ++ new
    /\ Forall (fixed_fields env) (usage_posts new).
Proof.
  induction ops as [|[|] ops IH]; intros g w; cbn.
  - exists []. by rewrite app_nil_r.
  - destruct (anext env g w) as [[o g1] w1] eqn:Hstep.
    destruct (IH g1 w1) as (new2 & Hlog2 & Hall2).
    destruct (drive env ops g1 w1) as [[os1 g2] w2]. cbn in *.
    apply anext_new in Hstep as (new1 & Hlog1 & Hshape).
    exists (new1 ++ new2). split.
    { by rewrite Hlog2, Hlog1, <- app_assoc. }
    rewrite usage_posts_app. apply Forall_app. split; [|done].
    destruct g as [a|a acc c up|]; [by subst| |by subst].
    destruct (done c); [|by subst].
    destruct Hshape as [r Hc]. by apply completion_facts in Hc as (? & _).
  - apply IH.
Qed.

(** The request identifier, the model and the token counts are the parts of
    a usage event that vary. *)
Example usage_event_of_scenario :
  usage_posts (log (consume
                      (Scenario.happy Scenario.the_config [] Scenario.hi_there)
                      4 (Created (Scenario.hello_args []))
                      Scenario.empty_world).2)
  = [{| account_id := "067423b0-81fa-702b-8000-b03b6db1eb93";
        ev_model_name := "gpt-4o";
        input_tokens := Some 5;
        output_tokens := Some 2;
        request_id := "uuid-0";
        user_id := Some "u1";
        tenant_id := Some "t1";
        ip_address := "127.0.0.1";
        user_agent := "" |}].
Proof. reflexivity. Qed.

(** ** Streams that stop before a terminal chunk *)

(** A generator parked on a chunk without the terminal flag, driven by a
    caller that receives no chunk with the flag, leaves the world as it
    is. *)
Lemma drive_quiet env : forall ops a acc c up w os g' w',
  drive env ops (Suspended a acc c up) w = (os, g', w') ->
  done c = false ->
  Forall (fun c => done c = false) (yielded os) ->
  w' = w.
Proof.
  induction ops as [|[|] ops IH]; intros a acc c up w os g' w'.
  - cbn. by intros [= _ _ <-].
  - cbn [drive]. intros Hd Hc Hos. rewrite (anext_not_done _ _ _ _ _ _ Hc) in Hd.
    unfold next_chunk in Hd. destruct up as [[|c1 rest] fl]; cbn in Hd.
    + destruct (drive env ops Finished w) as [[os1 g1] w1] eqn:Hd1.
      injection Hd as _ _ <-. by apply drive_finished in Hd1 as (_ & -> & _).
    + destruct (drive env ops _ w) as [[os1 g1] w1] eqn:Hd1.
      injection Hd as <- _ <-. cbn in Hos.
      apply Forall_cons in Hos as [Hc1 Hrest].
      by eapply IH.
  - cbn. intros Hd _ _. by apply drive_finished in Hd as (_ & -> & _).
Qed.

(** C6: however the caller pulls and closes, if no chunk it received carries
    the terminal flag (the caller left, or the provider failed, before one
    was reached), then no assistant message was written, no usage event
    posted and nothing committed: the only call made, if any, opened the
    provider stream.  Once closed or failed the generator is finished, and
    the deltas it had accumulated are gone with it. *)
Theorem unfinished_stream_writes_nothing env a w ops os g' w' :
  drive env ops (Created a) w = (os, g', w') ->
  Forall (fun c => done c = false) (yielded os) ->
  (log w' = log w
   \/ log w' = log w ++ [ProcessStream (session a) (req_content (schema a))])
  /\ assistant_writes (log w') = assistant_writes (log w)
  /\ usage_posts (log w') = usage_posts (log w)
  /\ commits (log w') = commits (log w)
  /\ persisted (log w') = persisted (log w)
  /\ (Aclose ∈ ops \/ (exists e, Raised e ∈ os) -> g' = Finished).
Proof.
  intros Hd Hquiet.
  assert (Hlog : log w' = log w
                 \/ log w' = log w ++ [ProcessStream (session a)
                                         (req_content (schema a))]).
  { destruct ops as [|[|] ops].
    - cbn in Hd. injection Hd as _ _ <-. by left.
    - cbn [drive] in Hd. rewrite anext_created in Hd. unfold next_chunk in Hd.
      destruct (upstream_of env a w) as [[|c1 rest] fl]; cbn in Hd.
      + destruct (drive env ops Finished _) as [[os1 g1] w1] eqn:Hd1.
        injection Hd as _ _ <-.
        apply drive_finished in Hd1 as (_ & -> & _). by right.
      + destruct (drive env ops _ _) as [[os1 g1] w1] eqn:Hd1.
        injection Hd as <- _ <-. cbn in Hquiet.
        apply Forall_cons in Hquiet as [Hc1 Hrest].
        apply drive_quiet in Hd1; [|done..]. subst w1. by right.
    - cbn in Hd. apply drive_finished in Hd as (_ & -> & _). by left. }
  split; [exact Hlog|].
  split; [|split; [|split; [|split]]].
  - destruct Hlog as [->| ->]; [done|].
    rewrite assistant_writes_app. cbn. by rewrite app_nil_r.
  - destruct Hlog as [->| ->]; [done|].
    rewrite usage_posts_app. cbn. by rewrite app_nil_r.
  - destruct Hlog as [->| ->]; [done|]. rewrite commits_app. cbn. lia.
  - destruct Hlog as [->| ->]; [done|].
    rewrite persisted_app. cbn. by rewrite app_nil_r.
  - by eapply drive_closed.
Qed.

Lemma unfinished_stream_writes_nothing_witness :
  let env := Scenario.happy Scenario.the_config [] Scenario.hi_there in
  let a := Scenario.hello_args [] in
  let run := drive env [Anext; Anext; Aclose; Anext] (Created a)
               Scenario.empty_world in
  (log run.2 = []
   \/ log run.2 = [] ++ [ProcessStream (session a) "hello"])
  /\ assistant_writes (log run.2) = []
  /\ usage_posts (log run.2) = []
  /\ commits (log run.2) = 0%nat
  /\ persisted (log run.2) = []
  /\ (Aclose ∈ [Anext; Anext; Aclose; Anext]
      \/ (exists e, Raised e ∈ run.1.1) -> run.1.2 = Finished).
Proof.
  intros env a run.
  apply (unfinished_stream_writes_nothing env a Scenario.empty_world
           [Anext; Anext; Aclose; Anext] run.1.1 run.1.2 run.2).
  - reflexivity.
  - cbn. repeat constructor.
Defined.

(** A provider that breaks off before any terminal chunk: the caller has
    the two deltas and the provider's exception, and nothing was written. *)
Example provider_failure_writes_nothing :
  let env := Scenario.happy Scenario.the_config [] Scenario.broken in
  let run := consume env 3 (Created (Scenario.hello_args []))
               Scenario.empty_world in
  run.1 = (chunks Scenario.broken, Failed (ExternalError "provider"))
  /\ persisted (log run.2) = []
  /\ usage_posts (log run.2) = []
  /\ commits (log run.2) = 0%nat.
Proof. repeat split; reflexivity. Qed.

(** The completion steps run when the caller comes back for the chunk after
    a terminal one: a caller that stops on the terminal chunk leaves nothing
    written. *)
Example stopping_on_terminal_chunk :
  let env := Scenario.happy Scenario.the_config [] Scenario.hi_there in
  let run := drive env [Anext; Anext; Anext; Aclose]
               (Created (Scenario.hello_args [])) Scenario.empty_world in
  yielded run.1.1 = chunks Scenario.hi_there
  /\ persisted (log run.2) = []
  /\ commits (log run.2) = 0%nat.
Proof. repeat split; reflexivity. Qed.

(** ** Once per terminal chunk *)




(** ** The upstream session *)

Lemma session_conversation l : forall llm,
  conversation (fold_left add_message l llm) = conversation llm ++ l
  /\ prompt_config (fold_left add_message l llm) = prompt_config llm
  /\ llm_config (fold_left add_message l llm) = llm_config llm.
Proof.
  induction l as [|m l IH]; intros llm; cbn.
  - by rewrite app_nil_r.
  - destruct (IH (add_message llm m)) as (-> & -> & ->). cbn.
    by rewrite <- app_assoc.
Qed.

(** C3 (as the code has it): the first pull opens the provider stream on a
    node whose system prompt is the configuration's custom instructions and
    whose conversation is the history without its last entry, and the input
    it generates against is the content of the request.  That input is the
    content of the newest history entry whenever the store lists the message
    just posted last, with its content unchanged; the newest entry is then
    not among the replayed turns. *)
Theorem session_seeded_from_history env a w :
  exists llm,
    log (anext env (Created a) w).2
    = log w ++ [ProcessStream llm (req_content (schema a))]
    /\ base_system_prompt (prompt_config llm) = custom_instructions (config a)
    /\ model (llm_config llm) = model_name (config a)
    /\ conversation llm = removelast (formatted_history a)
    /\ forall prior newest,
         formatted_history a = prior ++ [newest] ->
         turn_content newest = req_content (schema a) ->
         conversation llm = prior
         /\ log (anext env (Created a) w).2
            = log w ++ [ProcessStream llm (turn_content newest)].
Proof.
  exists (session a). rewrite anext_created. cbn [snd log record].
  unfold session.
  destruct (session_conversation (removelast (formatted_history a))
              (_initialize_llm (arg_api_key a) (arg_provider a) (config a)
                 (custom_instructions (config a)))) as (Hc & Hp & Hl).
  rewrite Hc, Hp, Hl. cbn.
  split; [done|]. split; [done|]. split; [done|]. split; [done|].
  intros prior newest Hh Hn. rewrite Hh, removelast_last, Hn. done.
Qed.

Lemma session_seeded_from_history_witness :
  let history := [{| role := "user"; turn_content := "hi" |};
                  {| role := "assistant";
                     turn_content := "hello, how can I help?" |};
                  {| role := "user"; turn_content := "hello" |}] in
  let env := Scenario.happy Scenario.the_config Scenario.fresh_history
               Scenario.hi_there in
  let a := Scenario.hello_args history in
  exists llm,
    conversation llm = removelast history
    /\ conversation llm
       = [{| role := "user"; turn_content := "hi" |};
          {| role := "assistant"; turn_content := "hello, how can I help?" |}]
    /\ log (anext env (Created a) Scenario.empty_world).2
       = [ProcessStream llm "hello"].
Proof.
  intros history env a.
  destruct (session_seeded_from_history env a Scenario.empty_world)
    as (llm & _ & _ & _ & Hconv & Hnewest).
  exists llm. split; [exact Hconv|].
  apply (Hnewest [{| role := "user"; turn_content := "hi" |};
                  {| role := "assistant";
                     turn_content := "hello, how can I help?" |}]
                 {| role := "user"; turn_content := "hello" |});
    reflexivity.
Defined.

(** C3, the claim as stated fails: the store answers with a history that
    does not list the message just posted; the input the provider generates
    against is still the request's content, not the content of the newest
    history entry, and that entry is dropped from the replayed turns. *)
Lemma newest_history_entry_is_not_the_input :
  let env := Scenario.happy Scenario.the_config Scenario.stale_history
               Scenario.hi_there in
  exists a w1 llm,
    process_user_message env "bot1" "T1" Scenario.hello true
      Scenario.empty_world = (Ok (Created a), w1)
    /\ last (formatted_history a)
       = Some {| role := "assistant"; turn_content := "hello, how can I help?" |}
    /\ log (anext env (Created a) w1).2
       = log w1 ++ [ProcessStream llm "hello"]
    /\ conversation llm = [{| role := "user"; turn_content := "hi" |}]
    /\ "hello" <> "hello, how can I help?".
Proof.
  intros env. eexists _, _, _.
  split; [reflexivity|]. split; [reflexivity|]. split; [reflexivity|].
  split; [reflexivity|]. discriminate.
Qed.

(** The accumulator is never reset: with two terminal chunks the second
    assistant message repeats the deltas of the first. *)
Example two_terminal_chunks :
  let up := {| chunks := [Scenario.final "A" 1 1; Scenario.delta "B";
                          Scenario.final "" 3 2];
               failure := None |} in
  let run := consume (Scenario.happy Scenario.the_config [] up) 4
               (Created (Scenario.hello_args [])) Scenario.empty_world in
  run.1 = (chunks up, Exhausted)
  /\ map p_content (assistant_writes (log run.2)) = ["A"; "AB"]
  /\ map input_tokens (usage_posts (log run.2)) = [Some 1; Some 3]
  /\ commits (log run.2) = 2%nat.
Proof. repeat split; reflexivity. Qed.

(** * Further properties *)

(** ** Provider resolution *)

(** The resolver answers exactly for the ten listed models, and always
    pairs the provider with that provider's own key. *)
Theorem resolver_characterised env m key prov :
  _get_api_key_and_provider env m = Ok (key, prov)
  <-> (m ∈ openai_models /\ key = OPENAI_API_KEY env /\ prov = "openai")
      \/ (m ∈ anthropic_models /\ key = ANTHROPIC_API_KEY env
          /\ prov = "anthropic").
Proof.
  assert (Hdisjoint : forall x, x ∈ openai_models -> x ∈ anthropic_models -> False).
  { intros x Ho Ha. unfold openai_models, anthropic_models in *.
    repeat (apply elem_of_cons in Ho as [->|Ho]);
      [..|by apply elem_of_nil in Ho];
      repeat (apply elem_of_cons in Ha as [Ha|Ha]; [discriminate|]);
      by apply elem_of_nil in Ha. }
  unfold _get_api_key_and_provider. split.
  - destruct (bool_decide (m ∈ openai_models)) eqn:Ho.
    + apply bool_decide_eq_true_1 in Ho. intros [= <- <-]. by left.
    + destruct (bool_decide (m ∈ anthropic_models)) eqn:Ha; [|discriminate].
      apply bool_decide_eq_true_1 in Ha. intros [= <- <-]. by right.
  - intros [(Ho & -> & ->)|(Ha & -> & ->)].
    + by rewrite (bool_decide_eq_true_2 _ Ho).
    + rewrite bool_decide_eq_false_2; [by rewrite (bool_decide_eq_true_2 _ Ha)|].
      intros Ho. by eapply Hdisjoint.
Qed.

Lemma resolver_characterised_witness :
  let env := Scenario.happy Scenario.the_config [] Scenario.hi_there in
  ("gpt-4o" ∈ openai_models /\ "sk-openai" = OPENAI_API_KEY env
   /\ "openai" = "openai")
  \/ ("gpt-4o" ∈ anthropic_models /\ "sk-openai" = ANTHROPIC_API_KEY env
      /\ "openai" = "anthropic").
Proof.
  intros env.
  apply (resolver_characterised env "gpt-4o" "sk-openai" "openai").
  reflexivity.
Defined.

(** ** The steps of [process_user_message] *)

(** A bot that does not exist, or has no current configuration, ends the
    request with the 404 error after one, respectively two, lookups: no
    identifier is drawn and nothing is sent to the message store. *)
Theorem missing_bot_or_config env bot_id thread_id schema w :
  (bot_repo_get env (log w) bot_id = Ok None ->
   process_user_message env bot_id thread_id schema true w
   = (Raise (APIError 404 "Bot not found"),
      {| log := log w ++ [BotRepoGet bot_id]; uuid_calls := uuid_calls w |}))
  /\ (forall b,
        bot_repo_get env (log w) bot_id = Ok (Some b) ->
        bot_config_repo_get env (log w ++ [BotRepoGet bot_id]) bot_id = Ok None ->
        process_user_message env bot_id thread_id schema true w
        = (Raise (APIError 404 "Bot config not found"),
           {| log := log w ++ [BotRepoGet bot_id; BotConfigRepoGet bot_id];
              uuid_calls := uuid_calls w |})).
Proof.
  split.
  - intros Hb. unfold process_user_message, bind, _get_bot_config, bind,
      call_bot_repo. cbn. by rewrite Hb.
  - intros b Hb Hc. unfold process_user_message, bind, _get_bot_config, bind,
      call_bot_repo, call_bot_config_repo. cbn. rewrite Hb. cbn. rewrite Hc.
    unfold record. cbn. by rewrite <- app_assoc.
Qed.

Lemma missing_bot_or_config_witness :
  let env :=
    {| OPENAI_API_KEY := ""; ANTHROPIC_API_KEY := "";
       current_user_id := None; current_tenant_id := None;
       uuid7 := fun _ => "";
       bot_repo_get := fun _ _ => Ok None;
       bot_config_repo_get := fun _ _ => Ok None;
       nexus_post := fun _ _ _ => Raise (ExternalError "nexus");
       nexus_get := fun _ _ _ _ => Raise (ExternalError "nexus");
       frost_post := fun _ _ _ => Ok tt;
       db_commit := fun _ => Ok tt;
       process_stream := fun _ _ _ => Scenario.hi_there |} in
  process_user_message env "bot1" "T1" Scenario.hello true Scenario.empty_world
  = (Raise (APIError 404 "Bot not found"),
     {| log := [BotRepoGet "bot1"]; uuid_calls := 0 |}).
Proof.
  intros env.
  destruct (missing_bot_or_config env "bot1" "T1" Scenario.hello
              Scenario.empty_world) as [Hbot _].
  apply Hbot. reflexivity.
Defined.

(** When every step succeeds the request makes four calls, in this order:
    bot lookup, configuration lookup, the post of the user message, and the
    history request, which carries the identifier and the branch the store
    answered with (not those that were sent).  The generator it returns has
    the resolved key and provider, the store's identifier for the user
    message, the request's [response_id], and the stored messages projected
    to role and content in the store's order. *)
Theorem request_succeeds env bot_id thread_id schema w b cfg key prov
    user_message messages :
  bot_repo_get env (log w) bot_id = Ok (Some b) ->
  bot_config_repo_get env (log w ++ [BotRepoGet bot_id]) bot_id = Ok (Some cfg) ->
  _get_api_key_and_provider env (model_name cfg) = Ok (key, prov) ->
  nexus_post env (log w ++ [BotRepoGet bot_id; BotConfigRepoGet bot_id])
    (messages_path thread_id) (user_payload env schema w) = Ok user_message ->
  nexus_get env
    (log w ++ [BotRepoGet bot_id; BotConfigRepoGet bot_id;
               NexusPost (messages_path thread_id) (user_payload env schema w)
                 true])
    (messages_path thread_id) (msg_id user_message) (branch_id user_message)
  = Ok messages ->
  process_user_message env bot_id thread_id schema true w
  = (Ok (Created
           {| schema := schema;
              arg_api_key := key;
              arg_provider := prov;
              config := cfg;
              thread_id := thread_id;
              user_msg_id := msg_id user_message;
              assistant_msg_id := response_id schema;
              formatted_history :=
                map (fun m => {| role := sm_role m;
                                 turn_content := sm_content m |}) messages |}),
     {| log := log w ++
               [BotRepoGet bot_id; BotConfigRepoGet bot_id;
                NexusPost (messages_path thread_id)
                  (user_payload env schema w) true;
                NexusGet (messages_path thread_id) (msg_id user_message)
                  (branch_id user_message) true];
        uuid_calls := if truthy (req_id schema) then uuid_calls w
                      else S (uuid_calls w) |}).
Proof.
  intros Hb Hc Hr Hpost Hget.
  unfold process_user_message. cbn [negb].
  unfold bind at 1. rewrite (_get_bot_config_found _ _ _ _ _ Hb Hc).
  unfold bind at 1. unfold lift. rewrite Hr.
  unfold bind at 1. rewrite _create_payload_spec.
  unfold bind at 1. unfold _post_user_message, call_nexus_post, record.
  cbn [log uuid_calls].
  match goal with |- context [user_payload env schema ?w0] =>
    change (user_payload env schema w0) with (user_payload env schema w) end.
  rewrite Hpost. cbn [is_ok].
  unfold bind at 1. unfold _get_formatted_history, bind, call_nexus_get, record.
  cbn [log uuid_calls]. rewrite <- app_assoc. cbn [app].
  rewrite Hget. cbn. by rewrite <- app_assoc.
Qed.

Lemma request_succeeds_witness :
  let env := Scenario.happy Scenario.the_config Scenario.fresh_history
               Scenario.hi_there in
  process_user_message env "bot1" "T1" Scenario.hello true Scenario.empty_world
  = (Ok (Created
           {| schema := Scenario.hello;
              arg_api_key := "sk-openai";
              arg_provider := "openai";
              config := Scenario.the_config;
              thread_id := "T1";
              user_msg_id := "m1";
              assistant_msg_id := "r1";
              formatted_history :=
                map (fun m => {| role := sm_role m;
                                 turn_content := sm_content m |})
                  Scenario.fresh_history |}),
     {| log := [] ++
               [BotRepoGet "bot1"; BotConfigRepoGet "bot1";
                NexusPost (messages_path "T1")
                  (user_payload env Scenario.hello Scenario.empty_world) true;
                NexusGet (messages_path "T1") "m1" "b1" true];
        uuid_calls := 0 |}).
Proof.
  intros env.
  apply (request_succeeds env "bot1" "T1" Scenario.hello Scenario.empty_world
           {| bot_id_of := "bot1" |} Scenario.the_config "sk-openai" "openai"
           {| msg_id := "m1"; branch_id := "b1" |} Scenario.fresh_history);
    reflexivity.
Defined.

(** The calls of a request, whatever the collaborators answer. *)
Lemma process_user_message_calls env bot_id thread_id schema w r w' :
  process_user_message env bot_id thread_id schema true w = (r, w') ->
  exists new last_message_id branch posted fetched,
    log w' = log w ++ new
    /\ new `prefix_of`
         [BotRepoGet bot_id; BotConfigRepoGet bot_id;
          NexusPost (messages_path thread_id) (user_payload env schema w) posted;
          NexusGet (messages_path thread_id) last_message_id branch fetched].
Proof.
  unfold process_user_message. cbn [negb]. intros H.
  apply bind_inv in H as [(e & H & _)|(cfg & w1 & Hcfg & H)].
  { unfold _get_bot_config, bind, call_bot_repo, call_bot_config_repo,
      record, ret, raise in H.
    destruct (bot_repo_get env (log w) bot_id) as [[b|]|e0]; cbn in H.
    - destruct (bot_config_repo_get env _ bot_id) as [[cfg|]|e0];
        cbn in H; [discriminate|..]; injection H as _ <-; cbn;
        exists [BotRepoGet bot_id; BotConfigRepoGet bot_id], "", "", true,
          true; (split; [by rewrite <- app_assoc|]);
        by eexists.
    - injection H as _ <-. exists [BotRepoGet bot_id], "", "", true, true.
      split; [done|]. by eexists.
    - injection H as _ <-. exists [BotRepoGet bot_id], "", "", true, true.
      split; [done|]. by eexists. }
  assert (Hw1 : log w1 = log w ++ [BotRepoGet bot_id; BotConfigRepoGet bot_id]
                /\ uuid_calls w1 = uuid_calls w).
  { unfold _get_bot_config, bind, call_bot_repo, call_bot_config_repo,
      record, ret, raise in Hcfg.
    destruct (bot_repo_get env (log w) bot_id) as [[b|]|e0]; cbn in Hcfg;
      [|discriminate..].
    destruct (bot_config_repo_get env _ bot_id) as [[cfg'|]|e0];
      cbn in Hcfg; [|discriminate..].
    injection Hcfg as _ <-. cbn. by rewrite <- app_assoc. }
  destruct Hw1 as [Hl1 Hu1].
  apply bind_inv in H as [(e & H & _)|(kp & w2 & Hkp & H)].
  { unfold lift in H. injection H as _ <-.
    exists [BotRepoGet bot_id; BotConfigRepoGet bot_id], "", "", true, true.
    split; [done|]. by eexists. }
  unfold lift in Hkp. injection Hkp as _ <-.
  apply bind_inv in H as [(e & H & _)|(payload & w3 & Hpay & H)];
    rewrite _create_payload_spec in *; [discriminate|].
  injection Hpay as <- <-.
  replace (user_payload env schema w1) with (user_payload env schema w) in H
    by (unfold user_payload; by rewrite Hu1).
  apply bind_inv in H as [(e & H & _)|(user_message & w4 & Hpost & H)].
  { apply _post_user_message_log in H. cbn in H.
    eexists _, "", "", false, true. split.
    { rewrite H, Hl1, <- app_assoc. reflexivity. }
    by eexists. }
  apply _post_user_message_log in Hpost. cbn in Hpost.
  assert (Hlast : exists fetched,
            log w' = log w4 ++ [NexusGet (messages_path thread_id)
                                  (msg_id user_message)
                                  (branch_id user_message) fetched]).
  { apply bind_inv in H as [(e & H & _)|(history & w5 & Hget & H)].
    - apply _get_formatted_history_log in H. eauto.
    - apply _get_formatted_history_log in Hget.
      unfold ret in H. injection H as _ <-. eauto. }
  destruct Hlast as [fetched Hlast].
  eexists _, (msg_id user_message), (branch_id user_message), true, fetched.
  split.
  { rewrite Hlast, Hpost, Hl1, <- !app_assoc. reflexivity. }
  by exists [].
Qed.

(** Whatever the collaborators answer, the calls of a request are an
    initial part of: bot lookup, configuration lookup, post of the user
    message, history request.  In particular the request itself never opens
    the provider stream, never posts to the usage sink and never commits;
    and the only body it sends to the message store is the user payload. *)
Theorem request_calls_in_order env bot_id thread_id schema w r w' :
  process_user_message env bot_id thread_id schema true w = (r, w') ->
  exists new last_message_id branch posted fetched,
    log w' = log w ++ new
    /\ new `prefix_of`
         [BotRepoGet bot_id; BotConfigRepoGet bot_id;
          NexusPost (messages_path thread_id) (user_payload env schema w) posted;
          NexusGet (messages_path thread_id) last_message_id branch fetched]
    /\ opens new = []
    /\ usage_posts new = []
    /\ commits new = 0%nat.
Proof.
  intros Hrun.
  destruct (process_user_message_calls _ _ _ _ _ _ _ Hrun)
    as (new & last & branch & posted & fetched & Hlog & Hprefix).
  exists new, last, branch, posted, fetched.
  split; [done|]. split; [done|].
  destruct Hprefix as [k Hk].
  pose proof (f_equal opens Hk) as Ho.
  pose proof (f_equal usage_posts Hk) as Hu.
  pose proof (f_equal commits Hk) as Hc.
  unfold opens in Ho. rewrite omap_app in Ho. fold (opens new) in Ho.
  rewrite usage_posts_app in Hu. rewrite commits_app in Hc.
  cbn in Ho, Hu, Hc. symmetry in Ho, Hu.
  apply app_eq_nil in Ho as [Ho _]. apply app_eq_nil in Hu as [Hu _].
  repeat split; [done..|lia].
Qed.

Lemma request_calls_in_order_witness :
  let env := Scenario.with_nexus_get
               (Scenario.happy Scenario.the_config [] Scenario.hi_there)
               (fun _ _ _ _ => Raise (ExternalError "nexus")) in
  let w' := (process_user_message env "bot1" "T1" Scenario.hello true
               Scenario.empty_world).2 in
  exists new last_message_id branch posted fetched,
    log w' = log Scenario.empty_world ++ new
    /\ new `prefix_of`
         [BotRepoGet "bot1"; BotConfigRepoGet "bot1";
          NexusPost (messages_path "T1")
            (user_payload env Scenario.hello Scenario.empty_world) posted;
          NexusGet (messages_path "T1") last_message_id branch fetched]
    /\ opens new = []
    /\ usage_posts new = []
    /\ commits new = 0%nat.
Proof.
  intros env w'.
  apply (request_calls_in_order env "bot1" "T1" Scenario.hello
           Scenario.empty_world (Raise (ExternalError "nexus")) w').
  reflexivity.
Defined.

(** An identifier supplied by the caller reaches the message store
    unchanged, so the body posted for a request does not depend on the
    environment or on what happened before: submitting the request again
    posts the same body.  Only a request without an identifier (absent or
    empty) gets one from [uuid7]. *)
Theorem caller_identifier_forwarded env bot_id thread_id schema w r w' new
    path json ok :
  process_user_message env bot_id thread_id schema true w = (r, w') ->
  log w' = log w ++ new ->
  NexusPost path json ok ∈ new ->
  path = messages_path thread_id
  /\ p_content json = req_content schema
  /\ p_role json = "user"
  /\ p_status json = "completed"
  /\ (forall id, req_id schema = Some id -> id <> "" -> p_id json = id)
  /\ (req_id schema = None \/ req_id schema = Some "" ->
      p_id json = uuid7 env (uuid_calls w))
  /\ (forall parent, req_parent_id schema = Some parent -> parent <> "" ->
      p_parent_id json = Some parent)
  /\ (req_parent_id schema = None \/ req_parent_id schema = Some "" ->
      p_parent_id json = None).
Proof.
  intros Hrun Hlog Hin.
  destruct (process_user_message_calls _ _ _ _ _ _ _ Hrun)
    as (new0 & last & branch & posted & fetched & Hlog0 & [k Hk]).
  rewrite Hlog0 in Hlog. apply app_inv_head in Hlog. subst new0.
  assert (Hin' : NexusPost path json ok
                 ∈ [BotRepoGet bot_id; BotConfigRepoGet bot_id;
                    NexusPost (messages_path thread_id)
                      (user_payload env schema w) posted;
                    NexusGet (messages_path thread_id) last branch fetched]).
  { rewrite Hk. apply elem_of_app. by left. }
  repeat (apply elem_of_cons in Hin' as [Hin'|Hin']; [try discriminate|]);
    [|by apply elem_of_nil in Hin'].
  injection Hin' as -> -> _. unfold user_payload. cbn.
  repeat split; try done.
  - intros id -> Hid. by destruct id.
  - by intros [-> | ->].
  - intros parent -> Hp. by destruct parent.
  - by intros [-> | ->].
Qed.

Lemma caller_identifier_forwarded_witness :
  let env := Scenario.happy Scenario.the_config [] Scenario.hi_there in
  let json := {| p_id := "m1"; p_content := "hello"; p_status := "completed";
                 p_parent_id := None; p_role := "user" |} in
  messages_path "T1" = messages_path "T1"
  /\ p_content json = req_content Scenario.hello
  /\ p_id json = "m1".
Proof.
  intros env json.
  destruct (caller_identifier_forwarded env "bot1" "T1" Scenario.hello
              Scenario.empty_world
              (process_user_message env "bot1" "T1" Scenario.hello true
                 Scenario.empty_world).1
              (process_user_message env "bot1" "T1" Scenario.hello true
                 Scenario.empty_world).2
              (log (process_user_message env "bot1" "T1" Scenario.hello true
                      Scenario.empty_world).2)
              (messages_path "T1") json true)
    as (Hpath & Hcontent & _ & _ & Hid & _).
  - reflexivity.
  - reflexivity.
  - cbn. do 2 apply list_elem_of_further. apply list_elem_of_here.
  - split; [exact Hpath|]. split; [exact Hcontent|].
    apply (Hid "m1"); [reflexivity|discriminate].
Defined.

(** ** The provider stream is opened late, and once *)

(** The provider is contacted only when the caller first pulls from the
    generator, and at most once however the caller goes on: on the node
    built from the arguments, with the request's content as input. *)
Theorem provider_opened_once env : forall ops g w,
  exists new,
    log (drive env ops g w).2 = log w ++ new
    /\ match g with
       | Created a =>
           opens new = []
           \/ opens new = [(session a, req_content (schema a))]
       | _ => opens new = []
       end.
Proof.
  assert (Hopens_app : forall l1 l2, opens (l1 ++ l2) = opens l1 ++ opens l2)
    by (intros; apply omap_app).
  induction ops as [|[|] ops IH]; intros g w; cbn [drive].
  - exists []. rewrite app_nil_r. split; [done|]. destruct g; auto.
  - destruct (anext env g w) as [[o g1] w1] eqn:Hstep.
    destruct (IH g1 w1) as (new2 & Hlog2 & Hopen2).
    destruct (drive env ops g1 w1) as [[os1 g2] w2]. cbn [snd] in *.
    assert (Hnone : opens new2 = []).
    { apply anext_outcome in Hstep.
      destruct o as [c| |e]; [destruct Hstep as (a & acc & up & ->)|subst..];
        exact Hopen2. }
    apply anext_new in Hstep as (new1 & Hlog1 & Hshape).
    exists (new1 ++ new2). split.
    { by rewrite Hlog2, Hlog1, <- app_assoc. }
    rewrite Hopens_app, Hnone, app_nil_r.
    destruct g as [a|a acc c up|].
    + subst new1. by right.
    + destruct (done c); [|by subst].
      destruct Hshape as [r Hc]. by inversion Hc.
    + by subst.
  - unfold aclose. destruct (IH Finished w) as (new & Hlog & Hopen).
    exists new. split; [done|]. destruct g; auto.
Qed.

(** ** Completion: failures and order *)




Lemma commits_guarded_app l1 l2 :
  commits_guarded l1 -> commits_guarded l2 -> commits_guarded (l1 ++ l2).
Proof.
  intros H1 H2 i ok Hi. apply lookup_app_Some in Hi as [Hi|[Hle Hi]].
  - destruct (H1 i ok Hi) as (j & path & message & ev & -> & Hp & Hrole & Hf).
    exists j, path, message, ev. split; [done|].
    split; [by apply lookup_app_l_Some|]. split; [done|].
    by apply lookup_app_l_Some.
  - destruct (H2 _ ok Hi) as (j & path & message & ev & Hj & Hp & Hrole & Hf).
    exists (length l1 + j)%nat, path, message, ev.
    split; [lia|]. split; [|split; [done|]].
    + rewrite lookup_app_r by lia.
      by replace (length l1 + j - length l1)%nat with j by lia.
    + rewrite lookup_app_r by lia.
      by replace (S (length l1 + j) - length l1)%nat with (S j) by lia.
Qed.

Lemma completion_guarded env a acc c w r new :
  Completion env a acc c w r new -> commits_guarded new.
Proof.
  intros H i ok Hi.
  inversion H; subst; destruct i as [|[|[|i]]]; cbn in Hi; try discriminate.
  - exists 0%nat. eauto 10.
  - exists 0%nat. eauto 10.
Qed.

(** Whatever the caller and the collaborators do, [db.commit()] is only ever
    called right after an assistant message that the store accepted and a
    usage event that the sink accepted, in that order. *)
Theorem commit_follows_both_posts env : forall ops g w,
  exists new,
    log (drive env ops g w).2 = log w ++ new /\ commits_guarded new.
Proof.
  assert (Hnil : commits_guarded []) by (intros i ok Hi; discriminate).
  induction ops as [|[|] ops IH]; intros g w; cbn [drive].
  - exists []. by rewrite app_nil_r.
  - destruct (anext env g w) as [[o g1] w1] eqn:Hstep.
    destruct (IH g1 w1) as (new2 & Hlog2 & Hg2).
    destruct (drive env ops g1 w1) as [[os1 g2] w2]. cbn [snd] in *.
    apply anext_new in Hstep as (new1 & Hlog1 & Hshape).
    exists (new1 ++ new2). split.
    { by rewrite Hlog2, Hlog1, <- app_assoc. }
    apply commits_guarded_app; [|done].
    destruct g as [a|a acc c up|].
    + subst new1. intros [|i] ok Hi; discriminate.
    + destruct (done c); [|by subst].
      destruct Hshape as [r Hc]. by eapply completion_guarded.
    + by subst.
  - apply IH.
Qed.

(** ** Request identifiers *)

Lemma on_done_ids env a acc c w r w' :
  on_done env a acc c w = (r, w') ->
  exists new ns,
    log w' = log w ++ new
    /\ map request_id (usage_posts new) = map (uuid7 env) ns
    /\ NoDup ns
    /\ Forall (fun n => (uuid_calls w <= n < uuid_calls w')%nat) ns
    /\ (uuid_calls w <= uuid_calls w')%nat.
Proof.
  unfold on_done, _post_assistant_message, bind, call_nexus_post,
    call_frost_post, call_db_commit, fresh_uuid, ret, raise, record.
  destruct (nexus_post env (log w) _ _) as [d|e]; cbn.
  2: { intros [= <- <-]. eexists _, []. cbn.
       repeat split; [constructor|constructor|lia]. }
  destruct (metadata c !! "usage") as [u|]; cbn.
  2: { intros [= <- <-]. eexists _, []. cbn.
       repeat split; [constructor|constructor|lia]. }
  assert (Hone : NoDup [uuid_calls w])
    by (apply NoDup_singleton).
  destruct (frost_post env _ "api/v1/events" _) as [[]|e]; cbn.
  2: { intros [= <- <-]. eexists _, [uuid_calls w]. cbn.
       split; [by rewrite <- app_assoc|].
       repeat split; [done|repeat constructor; lia|lia]. }
  destruct (db_commit env _) as [[]|e]; cbn;
    intros [= <- <-]; eexists _, [uuid_calls w]; cbn;
    (split; [by rewrite <- !app_assoc|]);
    repeat split; try done; try (repeat constructor; lia); lia.
Qed.

(** The request identifiers of the usage events posted during a run are the
    results of distinct [uuid7] calls, none of them made before the run: no
    two events share a call, and none reuses the call that named the user
    message. *)
Theorem request_ids_fresh env : forall ops g w,
  exists new ns,
    log (drive env ops g w).2 = log w ++ new
    /\ map request_id (usage_posts new) = map (uuid7 env) ns
    /\ NoDup ns
    /\ Forall (fun n => (uuid_calls w <= n
                         < uuid_calls (drive env ops g w).2)%nat) ns
    /\ (uuid_calls w <= uuid_calls (drive env ops g w).2)%nat.
Proof.
  induction ops as [|[|] ops IH]; intros g w; cbn [drive].
  - exists [], []. cbn. rewrite app_nil_r.
    repeat split; [constructor|constructor|lia].
  - destruct (anext env g w) as [[o g1] w1] eqn:Hstep.
    destruct (IH g1 w1) as (new2 & ns2 & Hlog2 & Hids2 & Hnd2 & Hb2 & Hle2).
    destruct (drive env ops g1 w1) as [[os1 g2] w2]. cbn [snd] in *.
    assert (Hfirst : exists new1 ns1,
              log w1 = log w ++ new1
              /\ map request_id (usage_posts new1) = map (uuid7 env) ns1
              /\ NoDup ns1
              /\ Forall (fun n => (uuid_calls w <= n < uuid_calls w1)%nat) ns1
              /\ (uuid_calls w <= uuid_calls w1)%nat).
    { destruct g as [a|a acc c up|]; cbn in Hstep.
      - destruct (next_chunk a [] _). injection Hstep as _ _ <-.
        eexists _, []. cbn. repeat split; [constructor|constructor|lia].
      - destruct (done c).
        + destruct (on_done env a acc c w) as [r w0] eqn:Hd.
          apply on_done_ids in Hd.
          destruct r as [[]|e]; [destruct (next_chunk a acc up)|];
            injection Hstep as _ _ <-; exact Hd.
        + destruct (next_chunk a acc up). injection Hstep as _ _ <-.
          exists [], []. cbn. rewrite app_nil_r.
          repeat split; [constructor|constructor|lia].
      - injection Hstep as _ _ <-. exists [], []. cbn. rewrite app_nil_r.
        repeat split; [constructor|constructor|lia]. }
    destruct Hfirst as (new1 & ns1 & Hlog1 & Hids1 & Hnd1 & Hb1 & Hle1).
    exists (new1 ++ new2), (ns1 ++ ns2). split.
    { by rewrite Hlog2, Hlog1, <- app_assoc. }
    split.
    { by rewrite usage_posts_app, !map_app, Hids1, Hids2. }
    split.
    { apply NoDup_app. split; [done|]. split; [|done].
      intros n H1 H2.
      rewrite Forall_forall in Hb1, Hb2.
      specialize (Hb1 n H1). specialize (Hb2 n H2). lia. }
    split; [|lia].
    apply Forall_app. split.
    + eapply Forall_impl; [exact Hb1|]. cbn. intros n Hn. lia.
    + eapply Forall_impl; [exact Hb2|]. cbn. intros n Hn. lia.
  - apply IH.
Qed.

(** Two terminal chunks, two usage events, two different identifiers. *)
Example request_ids_of_two_completions :
  let up := {| chunks := [Scenario.final "A" 1 1; Scenario.final "B" 3 2];
               failure := None |} in
  map request_id
    (usage_posts (log (consume (Scenario.happy Scenario.the_config [] up) 3
                         (Created (Scenario.hello_args []))
                         Scenario.empty_world).2))
  = ["uuid-0"; "uuid-1"].
Proof. reflexivity. Qed.

(** ** The text that is persisted *)

Lemma append_empty_r s : s +:+ "" = s.
Proof.
  induction s as [|ch s IH]; [done|].
  change (String ch (s +:+ "") = String ch s). by rewrite IH.
Qed.

Lemma append_assoc_string s1 s2 s3 : (s1 +:+ s2) +:+ s3 = s1 +:+ (s2 +:+ s3).
Proof.
  induction s1 as [|ch s1 IH]; [done|].
  change (String ch ((s1 +:+ s2) +:+ s3) = String ch (s1 +:+ (s2 +:+ s3))).
  by rewrite IH.
Qed.

(** Joining with the empty separator is plain concatenation. *)
Lemma concat_empty_separator l :
  String.concat "" l = fold_right String.append "" l.
Proof.
  induction l as [|x [|y l] IH]; [done| |].
  - cbn. by rewrite append_empty_r.
  - change (String.concat "" (x :: y :: l))
      with (x +:+ String.concat "" (y :: l)).
    by rewrite IH.
Qed.

(** Leaving out the empty and the absent deltas changes nothing in the text:
    the content of the assistant message is the concatenation of the
    contents of all chunks, an absent content counting as empty. *)
Theorem persisted_text_is_whole_stream a cs :
  p_content (assistant_message a (fold_left accumulate cs []))
  = String.concat "" (map (fun c => default "" (content c)) cs).
Proof.
  cbn [p_content assistant_message]. rewrite accumulate_deltas. cbn [app].
  rewrite !concat_empty_separator.
  induction cs as [|c cs IH]; [done|].
  unfold deltas in *. cbn.
  destruct (content c) as [[|ch s]|]; cbn; by rewrite IH.
Qed.

(** ** The node handed to the provider *)

(** For every generator a request returns, the node it will stream from
    carries the key of the provider family of its own model; model,
    temperature and token limit are those of the bot's configuration;
    streaming is on with chunks of 10, and the prompt template passes the
    input through. *)
Theorem node_matches_configuration env bot_id thread schema w a w1 :
  process_user_message env bot_id thread schema true w = (Ok (Created a), w1) ->
  let llm := session a in
  _get_api_key_and_provider env (model (llm_config llm))
  = Ok (api_key (llm_config llm), provider (llm_config llm))
  /\ model (llm_config llm) = model_name (config a)
  /\ llm_temperature (llm_config llm) = temperature (config a)
  /\ max_tokens (llm_config llm) = max_output_tokens (config a)
  /\ streaming (llm_config llm) = {| enabled := true; chunk_size := 10 |}
  /\ input_type (prompt_config llm) = USER_PROMPT
  /\ template (prompt_config llm) = "{input}".
Proof.
  intros Hrun llm. subst llm.
  destruct (process_user_message_ok _ _ _ _ _ _ _ Hrun)
    as (cfg & key & prov & payload & um & history & l & Hg & Hr & _).
  unfold _handle_streaming_response in Hg. injection Hg as ->.
  unfold session.
  destruct (session_conversation
              (removelast (formatted_history
                 {| schema := schema; arg_api_key := key; arg_provider := prov;
                    config := cfg; thread_id := thread;
                    user_msg_id := msg_id um;
                    assistant_msg_id := response_id schema;
                    formatted_history := history |}))
              (_initialize_llm key prov cfg (custom_instructions cfg)))
    as (_ & Hp & Hl).
  cbn [arg_api_key arg_provider config] in *. rewrite Hp, Hl. cbn.
  by repeat split.
Qed.

Lemma node_matches_configuration_witness :
  let env := Scenario.happy Scenario.the_config Scenario.fresh_history
               Scenario.hi_there in
  let a := Scenario.hello_args
             (map (fun m => {| role := sm_role m; turn_content := sm_content m |})
                Scenario.fresh_history) in
  let llm := session a in
  _get_api_key_and_provider env (model (llm_config llm))
  = Ok (api_key (llm_config llm), provider (llm_config llm))
  /\ model (llm_config llm) = model_name (config a)
  /\ llm_temperature (llm_config llm) = temperature (config a)
  /\ max_tokens (llm_config llm) = max_output_tokens (config a)
  /\ streaming (llm_config llm) = {| enabled := true; chunk_size := 10 |}
  /\ input_type (prompt_config llm) = USER_PROMPT
  /\ template (prompt_config llm) = "{input}".
Proof.
  intros env a.
  apply (node_matches_configuration env "bot1" "T1" Scenario.hello
           Scenario.empty_world a
           (process_user_message env "bot1" "T1" Scenario.hello true
              Scenario.empty_world).2).
  reflexivity.
Defined.

(** ** The caller's loop ends *)

Lemma play_ends env a fl : forall cs acc w ys ending w',
  play env a acc cs fl w = (ys, ending, w') ->
  ending = Exhausted \/ exists e, ending = Failed e.
Proof.
  induction cs as [|c cs IH]; intros acc w ys ending w'; cbn.
  - intros [= _ <- _]. destruct fl; cbn; eauto.
  - destruct (done c).
    + destruct (on_done env a (accumulate acc c) c w) as [[[]|e] w1].
      * destruct (play env a (accumulate acc c) cs fl w1)
          as [[ys1 ending1] w2] eqn:Hp.
        intros [= _ <- _]. by eapply IH.
      * intros [= _ <- _]. eauto.
    + destruct (play env a (accumulate acc c) cs fl w)
        as [[ys1 ending1] w2] eqn:Hp.
      intros [= _ <- _]. by eapply IH.
Qed.

(** A caller that keeps pulling is done after at most one pull more than the
    provider has chunks: the loop ends by exhaustion or with an exception,
    and more pulls than that change nothing. *)
Theorem caller_loop_ends env a w fuel :
  (length (chunks (upstream_of env a w)) < fuel)%nat ->
  exists ys ending w',
    consume env fuel (Created a) w = (ys, ending, w')
    /\ (ending = Exhausted \/ exists e, ending = Failed e)
    /\ (length ys <= length (chunks (upstream_of env a w)))%nat
    /\ forall fuel',
         (length (chunks (upstream_of env a w)) < fuel')%nat ->
         consume env fuel' (Created a) w = (ys, ending, w').
Proof.
  intros Hfuel. rewrite (consume_created _ _ _ _ Hfuel).
  destruct (play env a [] _ _ _) as [[ys ending] w'] eqn:Hp.
  exists ys, ending, w'. split; [done|]. split; [by eapply play_ends|].
  split.
  - apply play_prefix in Hp. by apply prefix_length.
  - intros fuel' Hfuel'. by rewrite (consume_created _ _ _ _ Hfuel').
Qed.

Lemma caller_loop_ends_witness :
  let env := Scenario.happy Scenario.the_config [] Scenario.broken in
  let a := Scenario.hello_args [] in
  exists ys ending w',
    consume env 3 (Created a) Scenario.empty_world = (ys, ending, w')
    /\ (ending = Exhausted \/ exists e, ending = Failed e)
    /\ (length ys <= length (chunks (upstream_of env a Scenario.empty_world)))%nat
    /\ forall fuel',
         (length (chunks (upstream_of env a Scenario.empty_world)) < fuel')%nat ->
         consume env fuel' (Created a) Scenario.empty_world = (ys, ending, w').
Proof.
  intros env a.
  apply (caller_loop_ends env a Scenario.empty_world 3).
  cbn. lia.
Defined.

(** ** The stream callbacks *)

Lemma deltas_cons c cs :
  deltas (c :: cs)
  = match content c with
    | Some (String ch s) => String ch s :: deltas cs
    | _ => deltas cs
    end.
Proof. unfold deltas. cbn. by destruct (content c) as [[|ch s]|]. Qed.

Lemma printed_with_banner banner : forall pre t,
  Forall (fun c => content c <> None) (pre ++ [t]) ->
  Forall (fun c => done c = false) pre ->
  done t = true ->
  fold_right String.append ""
    (map (fun c => format_content (content c)
                   +:+ (if done c then banner else "")) (pre ++ [t]))
  = fold_right String.append "" (deltas (pre ++ [t])) +:+ banner.
Proof.
  induction pre as [|c pre IH]; intros t Hpresent Hquiet Ht.
  - apply Forall_cons in Hpresent as [Hc _]. cbn [app map fold_right].
    rewrite deltas_cons, Ht, append_empty_r.
    destruct (content t) as [[|ch s]|]; [| |done]; cbn [format_content].
    + reflexivity.
    + change (deltas []) with (@nil string). cbn [fold_right].
      by rewrite append_empty_r.
  - cbn [app] in Hpresent.
    apply Forall_cons in Hpresent as [Hc Hpresent].
    apply Forall_cons in Hquiet as [Hd Hquiet].
    specialize (IH t Hpresent Hquiet Ht).
    cbn [app map fold_right]. rewrite IH, Hd, append_empty_r, deltas_cons.
    destruct (content c) as [[|ch s]|]; [| |done]; cbn [format_content].
    + reflexivity.
    + cbn [fold_right]. by rewrite append_assoc_string.
Qed.

(** On a stream whose contents are all present and whose last chunk alone is
    terminal, either callback, called on each chunk in turn, prints the very
    text the service persists as the assistant message, followed by its
    banner. *)
Theorem callbacks_print_persisted_text a pre t :
  Forall (fun c => content c <> None) (pre ++ [t]) ->
  Forall (fun c => done c = false) pre ->
  done t = true ->
  let text := p_content (assistant_message a (deltas (pre ++ [t]))) in
  printed stream_callback (pre ++ [t])
  = text +:+ newline +:+ "--- Stream completed ---" +:+ newline +:+ newline
  /\ printed StreamingExample.stream_callback (pre ++ [t])
     = text +:+ newline +:+ "--- Stream completed ---" +:+ newline.
Proof.
  intros Hpresent Hquiet Ht text. subst text.
  cbn [p_content assistant_message]. unfold printed.
  rewrite !concat_empty_separator. split.
  - apply (printed_with_banner
             (newline +:+ "--- Stream completed ---" +:+ newline +:+ newline));
      done.
  - apply (printed_with_banner
             (newline +:+ "--- Stream completed ---" +:+ newline)); done.
Qed.

Lemma callbacks_print_persisted_text_witness :
  let a := Scenario.hello_args [] in
  let pre := [Scenario.delta "Hi"; Scenario.delta " there"] in
  let t := Scenario.final "" 5 2 in
  printed stream_callback (pre ++ [t])
  = "Hi there" +:+ newline +:+ "--- Stream completed ---" +:+ newline
    +:+ newline
  /\ printed StreamingExample.stream_callback (pre ++ [t])
     = "Hi there" +:+ newline +:+ "--- Stream completed ---" +:+ newline.
Proof.
  intros a pre t.
  apply (callbacks_print_persisted_text a pre t).
  - repeat constructor; discriminate.
  - repeat constructor.
  - reflexivity.
Defined.

(** A chunk without content makes the callback print the word [None], which
    the service does not persist. *)
Example callback_prints_none :
  printed stream_callback
    [{| content := None; metadata := ∅; done := false |}; Scenario.delta "Hi"]
  = "NoneHi"
  /\ deltas [{| content := None; metadata := ∅; done := false |};
             Scenario.delta "Hi"] = ["Hi"].
Proof. split; reflexivity. Qed.

(** ** The streaming example *)

(** [main] stops with [ValueError] exactly when both keys are missing or
    empty.  Otherwise it asks for an Anthropic node, for a model of the
    service's Anthropic list, with the Anthropic key as it found it: when
    only the OpenAI key is set, the node is asked for without a key. *)
Theorem example_key_check openai_api_key anthropic_api_key :
  (StreamingExample.main openai_api_key anthropic_api_key
   = StreamingExample.ValueError "Missing API key in environment variables"
   <-> truthy openai_api_key = false /\ truthy anthropic_api_key = false)
  /\ (forall node input,
        StreamingExample.main openai_api_key anthropic_api_key
        = StreamingExample.Streaming node input ->
        StreamingExample.node_provider node = "anthropic"
        /\ StreamingExample.node_model node ∈ anthropic_models
        /\ StreamingExample.node_api_key node = anthropic_api_key)
  /\ (truthy openai_api_key = true ->
      exists node input,
        StreamingExample.main openai_api_key None
        = StreamingExample.Streaming node input
        /\ StreamingExample.node_api_key node = None).
Proof.
  unfold StreamingExample.main. split; [|split].
  - destruct (truthy openai_api_key), (truthy anthropic_api_key); cbn;
      split; try done; intros [? ?]; discriminate.
  - intros node input.
    destruct (truthy openai_api_key), (truthy anthropic_api_key); cbn;
      try discriminate; intros [= <- _]; cbn; repeat split;
      apply (bool_decide_unpack _); vm_compute; exact I.
  - intros ->. cbn. eauto.
Qed.

Lemma example_key_check_witness :
  exists node input,
    StreamingExample.main (Some "sk-openai") None
    = StreamingExample.Streaming node input
    /\ StreamingExample.node_api_key node = None.
Proof.
  destruct (example_key_check (Some "sk-openai") None) as (_ & _ & Hnokey).
  apply Hnokey. reflexivity.
Defined.

(** ** The discovery endpoint *)

(** [get_discovery_characters] asks the service for active bots only; the
    category filter is there exactly when a category is given, and there is
    no other filter; an empty name is no search term; paging is passed on;
    the service's exception, if any, is the endpoint's. *)
Theorem discovery_query (Item : Type) skip limit category_id name :
  exists args,
    (forall get_bots : Character.GetBotsArgs -> result (list Item * Z),
       Character.get_discovery_characters get_bots skip limit category_id name
       = match get_bots args with
         | Ok (items, total) =>
             Ok {| Character.data := items;
                   Character.message := "Character fetched successfully";
                   Character.meta := {[ "total" := total ]} |}
         | Raise e => Raise e
         end)
    /\ Character.filters args !! "status"
       = Some (Character.Status Character.ACTIVE)
    /\ Character.filters args !! "category_id"
       = Character.Uuid <$> category_id
    /\ (forall k, is_Some (Character.filters args !! k) ->
                  k = "status" \/ k = "category_id")
    /\ Character.search_fields args = {[ "name" := "contains" ]}
    /\ Character.skip args = skip
    /\ Character.limit args = limit
    /\ (Character.search_term args = None <-> name = None \/ name = Some "")
    /\ (forall s, Character.search_term args = Some s -> name = Some s).
Proof.
  eexists. split; [intros get_bots; reflexivity|]. cbn.
  split.
  { destruct category_id; [by rewrite lookup_insert_ne|done]. }
  split.
  { destruct category_id; cbn; [by rewrite lookup_insert_eq|done]. }
  split.
  { intros k [v Hk]. destruct category_id as [c|].
    - destruct (decide (k = "category_id")) as [->|Hne]; [by right|].
      rewrite lookup_insert_ne in Hk by done.
      left. apply lookup_singleton_Some in Hk as [<- _]. done.
    - left. apply lookup_singleton_Some in Hk as [<- _]. done. }
  split; [done|]. split; [done|]. split; [done|]. split.
  - destruct name as [[|ch s]|]; cbn; split; try done; auto.
    intros [H|H]; discriminate.
  - intros s. destruct name as [[|ch s']|]; cbn; try done.
Qed.

Lemma discovery_query_witness :
  exists args,
    Character.filters args !! "category_id" = Some (Character.Uuid "c1")
    /\ Character.search_term args = None.
Proof.
  destruct (discovery_query nat 0 10 (Some "c1") (Some ""))
    as (args & _ & _ & Hcategory & _ & _ & _ & _ & Hterm & _).
  exists args. split; [exact Hcategory|]. apply Hterm. by right.
Defined.
